(** * jpeg-bot: a shallow embedding of [main.go] and its specification

    The bot listens for mentions, collects the image attachments of the
    mentioning post (or of the post it replies to), re-encodes each image as a
    JPEG of quality 5 and replies with the result.

    The Mastodon client, the HTTP client and the image codecs are external
    collaborators.  They are the fields of the class [Services]; everything
    the program itself does is written out below, function by function, in a
    small monad that threads the state of the outside world, records every
    external call and log line, and can panic. *)

From Stdlib Require Import List String Ascii Bool Arith NArith ZArith Lia.
From Stdlib.Strings Require Import Byte.
Import ListNotations.
Open Scope string_scope.

Set Implicit Arguments.

(** ** Go values *)

(** A Go [error] is modelled by its message, the text [%v] prints. *)
Definition error := string.

(** [mastodon.ID] is a named string type. *)
Definition ID := string.

(** [fmt.Errorf("<prefix>: %w", err)] *)
Definition Errorf (pre : string) (err : error) : error := pre ++ ": " ++ err.

Inductive result (A : Type) : Type :=
| Ok (a : A)
| Err (e : error).
Arguments Ok {A} a.
Arguments Err {A} e.

(** *** Byte slices

    A [[]byte] has a length and a capacity.  [elems] are the [len] bytes of
    the slice, [spare] is the rest of the backing array up to the capacity. *)
Record slice : Type := mkSlice {
  elems : list byte;
  spare : list byte
}.

Definition len (s : slice) : nat := List.length (elems s).
Definition cap (s : slice) : nat := List.length (elems s) + List.length (spare s).

(** [s[:n]]: the bound is checked against the capacity, not the length;
    [None] is the run-time panic "slice bounds out of range". *)
Definition reslice_to (s : slice) (n : nat) : option (list byte) :=
  if (n <=? cap s)%nat then Some (firstn n (elems s ++ spare s)) else None.

(** [[]byte{b1, ..., bn}]: a literal has no spare capacity. *)
Definition slice_lit (bs : list byte) : slice := mkSlice bs [].

(** [io.ReadAll]: the buffer starts as [make([]byte, 0, 512)] and only grows,
    so the slice it returns has capacity at least 512; what was never written
    is zero. *)
Definition io_ReadAll (body : list byte) : slice :=
  mkSlice body (repeat x00 (512 - List.length body)).

(** *** [fmt.Sprintf("%x", bytes)] and [strings.HasPrefix] *)

Definition hex_digit (n : N) : ascii :=
  match n with
  | 0%N => "0" | 1%N => "1" | 2%N => "2" | 3%N => "3"
  | 4%N => "4" | 5%N => "5" | 6%N => "6" | 7%N => "7"
  | 8%N => "8" | 9%N => "9" | 10%N => "a" | 11%N => "b"
  | 12%N => "c" | 13%N => "d" | 14%N => "e" | _ => "f"
  end%char.

Fixpoint Sprintf_x (bs : list byte) : string :=
  match bs with
  | [] => EmptyString
  | b :: rest =>
      let n := Byte.to_N b in
      String (hex_digit (n / 16)) (String (hex_digit (n mod 16)) (Sprintf_x rest))
  end.

Definition HasPrefix (s pre : string) : bool := String.prefix pre s.

(** ** The Mastodon data the program touches *)

Record Attachment : Type := mkAttachment {
  att_ID : ID;
  att_Type : string;
  att_URL : string
}.

(** [Status.InReplyToID] is an [interface{}].  JSON decoding leaves it [nil],
    a [string], or some other dynamic type (a number arrives as [float64]);
    a [mastodon.ID] can be stored by Go code.  [IrOther] carries the name
    [%T] prints. *)
Inductive InReplyTo : Type :=
| IrNil
| IrString (s : string)
| IrID (id : ID)
| IrOther (tyname : string).

Record Status : Type := mkStatus {
  st_ID : ID;
  st_Visibility : string;
  st_MediaAttachments : list Attachment;
  st_InReplyToID : InReplyTo
}.

Record Account : Type := mkAccount {
  acc_Acct : string
}.

(** A notification together with its status: [n_Status] is what the pointer
    [notification.Status] points to.  The notification whose pointer is nil
    is [NotificationPtr], and [handleMention_ptr] is the handler on it. *)
Record Notification : Type := mkNotification {
  n_Account : Account;
  n_Status : Status
}.

Record Toot : Type := mkToot {
  toot_Status : string;
  toot_InReplyToID : ID;
  toot_MediaIDs : list ID;
  toot_Visibility : string
}.

(** The outcome of [http.Get] followed by [io.ReadAll] on the body. *)
Inductive HttpResult : Type :=
| GetFailed (e : error)
| ReadFailed (e : error)
| Body (bytes : list byte).

(** ** What the program does to the outside, in the order it does it *)
Inductive Event : Type :=
| EvGetStatus (id : ID) (r : result Status)
| EvHttpGet (url : string) (r : HttpResult)
| EvUpload (data : list byte) (r : result Attachment)
| EvPostStatus (t : Toot) (r : option error)
| EvLog (msg : string).

(** ** The collaborators *)
Class Services (World Image : Type) : Type := {
  GetStatus : ID -> World -> result Status * World;
  http_Get : string -> World -> HttpResult * World;
  UploadMediaFromReader : list byte -> World -> result Attachment * World;
  (** the posted status that comes back is never looked at *)
  PostStatus : Toot -> World -> option error * World;
  png_Decode : list byte -> result Image;
  image_Decode : list byte -> result (Image * string);
  webp_Decode : list byte -> result Image;
  jpeg_Encode : Image -> Z -> result (list byte)
}.

(** ** The monad: world state, trace of events, panics *)
Inductive outcome (A : Type) : Type :=
| Val (a : A)
| Panic (msg : string).
Arguments Val {A} a.
Arguments Panic {A} msg.

Record run (World A : Type) : Type := mkRun {
  out : outcome A;
  world : World;
  trace : list Event
}.

Definition M (World A : Type) : Type := World -> run World A.

Definition ret {World A} (a : A) : M World A :=
  fun w => mkRun (Val a) w [].

Definition bind {World A B} (m : M World A) (f : A -> M World B) : M World B :=
  fun w =>
    let r := m w in
    match out r with
    | Val a =>
        let r' := f a (world r) in
        mkRun (out r') (world r') (trace r ++ trace r')%list
    | Panic msg => mkRun (Panic msg) (world r) (trace r)
    end.

(** An external call: run it on the world and record it with its answer. *)
Definition call {World A} (f : World -> A * World) (ev : A -> Event) : M World A :=
  fun w => let '(a, w') := f w in mkRun (Val a) w' [ev a].

Definition log_Printf {World} (msg : string) : M World unit :=
  fun w => mkRun (Val tt) w [EvLog msg].

Declare Scope bot_scope.
Delimit Scope bot_scope with bot.
Notation "x <- m ;; k" := (bind m (fun x => k))
  (at level 61, m at next level, right associativity) : bot_scope.
Notation "m ;;; k" := (bind m (fun _ => k))
  (at level 61, right associativity) : bot_scope.

(** [for _, x := range xs { body }] *)
Fixpoint for_range {World A} (xs : list A) (body : A -> M World unit) : M World unit :=
  match xs with
  | [] => ret tt
  | x :: rest => bind (body x) (fun _ => for_range rest body)
  end.

(** The traces of the successive runs of a loop body, one per element. *)
Fixpoint segments {World A} (xs : list A) (body : A -> M World unit) (w : World)
  : list (list Event) :=
  match xs with
  | [] => []
  | x :: rest => trace (body x w) :: segments rest body (world (body x w))
  end.

Definition lift {World A} (o : outcome A) : M World A :=
  fun w => mkRun o w [].

(** ** The program *)

Section Program.

Context {World Image : Type} {services : Services World Image}.

Open Scope bot_scope.

(** The loop of [collectImages], run once on the post and once on its
    parent: [images = append(images, attachment.URL)] for each attachment
    whose type is "image". *)
Definition append_images (images : list string) (atts : list Attachment)
  : list string :=
  fold_left
    (fun (images : list string) (attachment : Attachment) =>
       if att_Type attachment =? "image"
       then (images ++ [att_URL attachment])%list
       else images)
    atts images.

(** [status.InReplyToID != ""]: an interface value equals the string
    constant only when it holds a [string] that is empty. *)
Definition ne_empty_string (x : InReplyTo) : bool :=
  match x with
  | IrString s => negb (s =? "")
  | _ => true
  end.

Definition collectImages (status : Status) : M World (list string) :=
  let images := append_images [] (st_MediaAttachments status) in
  if (List.length images =? 0)%nat && ne_empty_string (st_InReplyToID status) then
    let originalStatusIDa := st_InReplyToID status in
    match originalStatusIDa with
    | IrNil => ret images
    | _ =>
        originalStatusID <-
          match originalStatusIDa with
          | IrString id => ret id
          | IrID id => ret id
          | IrOther tyname =>
              log_Printf ("Unexpected type for InReplyToID: " ++ tyname) ;;;
              ret EmptyString
          | IrNil => ret EmptyString
          end ;;
        r <- call (GetStatus originalStatusID) (EvGetStatus originalStatusID) ;;
        match r with
        | Ok originalStatus =>
            ret (append_images images (st_MediaAttachments originalStatus))
        | Err _ => ret images
        end
    end
  else ret images.

(** [bytes.NewReader(imgData)] reads the [len] bytes of the slice; each
    decoder is handed the reader at offset 0 (fresh, or after [Seek(0)]), so
    each sees all of them.  [imgData[:8]] is evaluated first. *)
Definition decodeImage (imgData : slice) : outcome (result (Image * string)) :=
  let reader := elems imgData in
  match reslice_to imgData 8 with
  | None => Panic "slice bounds out of range"
  | Some head =>
      if HasPrefix (Sprintf_x head) "89504e470d0a1a0a" then
        match png_Decode reader with
        | Ok img => Val (Ok (img, "png"))
        | Err err => Val (Err (Errorf "PNG decoding failed" err))
        end
      else
        match image_Decode reader with
        | Ok (img, format) => Val (Ok (img, format))
        | Err _ =>
            match webp_Decode reader with
            | Ok img => Val (Ok (img, "webp"))
            | Err _ => Val (Err "unsupported image format")
            end
        end
  end.

Definition downloadAndCompressImage (imageURL : string)
  : M World (result (list byte)) :=
  resp <- call (http_Get imageURL) (EvHttpGet imageURL) ;;
  match resp with
  | GetFailed err => ret (Err (Errorf "failed to download image" err))
  | ReadFailed err => ret (Err (Errorf "failed to read image data" err))
  | Body bytes =>
      let imgData := io_ReadAll bytes in
      d <- lift (decodeImage imgData) ;;
      match d with
      | Err err => ret (Err (Errorf "error decoding image" err))
      | Ok (img, format) =>
          log_Printf ("Decoded image with format: " ++ format) ;;;
          match jpeg_Encode img 5 with
          | Err err => ret (Err (Errorf "error encoding to jpeg" err))
          | Ok buf => ret (Ok buf)
          end
      end
  end.

Definition error_toot (notification : Notification) (errorMsg : string) : Toot :=
  {| toot_Status :=
       "@" ++ acc_Acct (n_Account notification) ++ " Oops! " ++ errorMsg;
     toot_InReplyToID := st_ID (n_Status notification);
     toot_MediaIDs := [];
     toot_Visibility := st_Visibility (n_Status notification) |}.

Definition replyWithError (notification : Notification) (errorMsg : string)
  : M World unit :=
  let reply := error_toot notification errorMsg in
  r <- call (PostStatus reply) (EvPostStatus reply) ;;
  match r with
  | Some err => log_Printf ("Error posting error reply: " ++ err)
  | None => ret tt
  end.

Definition success_toot (notification : Notification) (media : Attachment)
  (visibility : string) : Toot :=
  {| toot_Status :=
       "@" ++ acc_Acct (n_Account notification) ++ " Here's your compressed JPEG!";
     toot_InReplyToID := st_ID (n_Status notification);
     toot_MediaIDs := [att_ID media];
     toot_Visibility := visibility |}.

Definition uploadMediaAndReply (compressedJPEG : list byte)
  (notification : Notification) (visibility : string) : M World unit :=
  m <- call (UploadMediaFromReader compressedJPEG) (EvUpload compressedJPEG) ;;
  match m with
  | Err err => replyWithError notification ("Error uploading media: " ++ err)
  | Ok media =>
      let visibility := if visibility =? "public" then "unlisted" else visibility in
      let reply := success_toot notification media visibility in
      r <- call (PostStatus reply) (EvPostStatus reply) ;;
      match r with
      | Some err => replyWithError notification ("Error posting reply: " ++ err)
      | None => ret tt
      end
  end.

(** The body of the loop of [handleMention]. *)
Definition handleMention_image (notification : Notification) (imageURL : string)
  : M World unit :=
  r <- downloadAndCompressImage imageURL ;;
  match r with
  | Err err =>
      replyWithError notification ("Error compressing image: " ++ err)
  | Ok compressedJPEG =>
      uploadMediaAndReply compressedJPEG notification
        (st_Visibility (n_Status notification))
  end.

Definition handleMention (notification : Notification) : M World unit :=
  let status := n_Status notification in
  images <- collectImages status ;;
  if (List.length images =? 0)%nat then
    replyWithError notification "No images found to process."
  else
    for_range images (handleMention_image notification).

End Program.

(** ** What the specification talks about *)

(** The image URLs of a list of attachments, in attachment order. *)
Definition image_urls (atts : list Attachment) : list string :=
  map att_URL (filter (fun a => att_Type a =? "image") atts).

(** The reply target in its single identifier form: a non-empty raw string or
    a typed identifier; absent otherwise. *)
Definition reply_target (x : InReplyTo) : option ID :=
  match x with
  | IrString s => if s =? "" then None else Some s
  | IrID id => Some id
  | IrNil | IrOther _ => None
  end.

(** The visibility policy of success replies. *)
Definition reply_visibility (original : string) : string :=
  if original =? "public" then "unlisted" else original.

Definition is_upload (e : Event) : bool :=
  match e with EvUpload _ _ => true | _ => false end.

Definition is_get_status (e : Event) : bool :=
  match e with EvGetStatus _ _ => true | _ => false end.

Definition is_log (e : Event) : bool :=
  match e with EvLog _ => true | _ => false end.

(** The toots handed to [PostStatus], in order. *)
Definition posted (t : list Event) : list Toot :=
  flat_map (fun e => match e with EvPostStatus toot _ => [toot] | _ => [] end) t.

(** The URLs handed to [http.Get], in order. *)
Definition fetched (t : list Event) : list string :=
  flat_map (fun e => match e with EvHttpGet url _ => [url] | _ => [] end) t.

(** [sub] occurs in [s]. *)
Definition contains (s sub : string) : Prop :=
  exists pre post, s = pre ++ sub ++ post.

(** The compressor as [downloadAndCompressImage] runs it: JPEG, quality 5. *)
Definition compress {World Image} {services : Services World Image}
  (img : Image) : result (list byte) :=
  match jpeg_Encode img 5 with
  | Ok buf => Ok buf
  | Err err => Err ("error encoding to jpeg: " ++ err)
  end.

(** What one run of the per-image pipeline looks like from outside: the
    fetch of the URL comes first; then either every stage succeeded and the
    success reply went out, or an error reply was attempted. *)
Inductive attempt {World Image} {services : Services World Image}
  (n : Notification) (url : string) : list Event -> Prop :=
| attempt_succeeded (bytes : list byte) (format : string) (img : Image)
    (data : list byte) (media : Attachment) :
    jpeg_Encode img 5 = Ok data ->
    attempt n url
      [EvHttpGet url (Body bytes);
       EvLog ("Decoded image with format: " ++ format);
       EvUpload data (Ok media);
       EvPostStatus
         (success_toot n media (reply_visibility (st_Visibility (n_Status n))))
         None]
| attempt_failed (resp : HttpResult) (rest : list Event) (msg : string)
    (r : option error) :
    fetched rest = [] ->
    In (EvPostStatus (error_toot n msg) r) rest ->
    attempt n url (EvHttpGet url resp :: rest).

(** Every toot handed to [PostStatus] satisfies [P]. *)
Definition posts_satisfy (P : Toot -> Prop) (e : Event) : Prop :=
  match e with
  | EvPostStatus t _ => P t
  | _ => True
  end.

Definition png_magic : list byte := [x89; x50; x4e; x47; x0d; x0a; x1a; x0a].

(** ** A small concrete world, to run the program on

    The world counts the calls to [PostStatus] and holds the numbers of the
    calls that fail.  A decoded bitmap is the payload that follows the
    signature. *)
Module Demo.

Record World : Type := mkWorld {
  post_calls : nat;
  failing_posts : list nat
}.

Definition Image : Type := list byte.

Definition parent : Status :=
  {| st_ID := "100";
     st_Visibility := "public";
     st_MediaAttachments :=
       [ mkAttachment "a1" "image" "https://files.example/cat.png";
         mkAttachment "a2" "video" "https://files.example/clip.mp4";
         mkAttachment "a3" "image" "https://files.example/dog.jpg" ];
     st_InReplyToID := IrNil |}.

Definition get_status (id : ID) (w : World) : result Status * World :=
  if id =? "100" then (Ok parent, w) else (Err "404 Not Found", w).

Definition cat_png : list byte := (png_magic ++ [x01; x02; x03])%list.
Definition dog_jpg : list byte := [xff; xd8; x0a; x0b].
Definition cat_jpg : list byte := [xff; xd8; x01; x02; x03].
Definition bad_png : list byte := (png_magic ++ [xff])%list.

Definition http_get (url : string) (w : World) : HttpResult * World :=
  if url =? "https://files.example/cat.png" then (Body cat_png, w)
  else if url =? "https://files.example/dog.jpg" then (Body dog_jpg, w)
  else if url =? "https://files.example/cat.jpg" then (Body cat_jpg, w)
  else if url =? "https://files.example/bad.png" then (Body bad_png, w)
  else if url =? "https://files.example/tiny" then (Body [x01], w)
  else if url =? "https://files.example/cut" then (ReadFailed "unexpected EOF", w)
  else (GetFailed "connection refused", w).

Definition upload (data : list byte) (w : World) : result Attachment * World :=
  match data with
  | [] => (Err "422 Unprocessable Entity", w)
  | _ => (Ok (mkAttachment "m1" "image" "https://files.example/m1.jpg"), w)
  end.

Definition post_status (t : Toot) (w : World) : option error * World :=
  let k := S (post_calls w) in
  let w' := mkWorld k (failing_posts w) in
  if existsb (Nat.eqb k) (failing_posts w)
  then (Some "503 Service Unavailable", w')
  else (None, w').

Definition starts_with (bs pre : list byte) : bool :=
  if list_eq_dec Byte.byte_eq_dec (firstn (List.length pre) bs) pre
  then true else false.

Definition decode_png (bs : list byte) : result Image :=
  if starts_with bs png_magic then
    match skipn 8 bs with
    | [xff] => Err "png: invalid format: chunk out of order"
    | payload => Ok payload
    end
  else Err "png: invalid format: not a PNG file".

Definition decode_any (bs : list byte) : result (Image * string) :=
  if starts_with bs [xff; xd8] then Ok (skipn 2 bs, "jpeg")
  else
    match decode_png bs with
    | Ok img => Ok (img, "png")
    | Err _ => Err "image: unknown format"
    end.

Definition decode_webp (bs : list byte) : result Image :=
  if starts_with bs [x52; x49; x46; x46] then Ok (skipn 4 bs)
  else Err "riff: missing RIFF chunk header".

Definition encode_jpeg (img : Image) (quality : Z) : result (list byte) :=
  Ok (xff :: xd8 :: match Byte.of_N (Z.to_N quality) with
                    | Some q => q
                    | None => xff
                    end :: img).

#[export] Instance services : Services World Image :=
  {| GetStatus := get_status;
     http_Get := http_get;
     UploadMediaFromReader := upload;
     PostStatus := post_status;
     png_Decode := decode_png;
     image_Decode := decode_any;
     webp_Decode := decode_webp;
     jpeg_Encode := encode_jpeg |}.

Definition w0 : World := mkWorld 0 [].
(** the first post will fail *)
Definition w1 : World := mkWorld 0 [1].
(** the first two posts will fail *)
Definition w12 : World := mkWorld 0 [1; 2].

Definition alice : Account := mkAccount "alice@example.social".

Definition mention (visibility : string) (atts : list Attachment)
  (reply : InReplyTo) : Notification :=
  mkNotification alice (mkStatus "200" visibility atts reply).

Definition cat : Attachment :=
  mkAttachment "a1" "image" "https://files.example/cat.png".
Definition dog : Attachment :=
  mkAttachment "a3" "image" "https://files.example/dog.jpg".
Definition gone : Attachment :=
  mkAttachment "a4" "image" "https://files.example/gone.png".
Definition clip : Attachment :=
  mkAttachment "a2" "video" "https://files.example/clip.mp4".

End Demo.

(** ** [main]: start-up and the event loop *)

(** The [server] table of config.toml. *)
Record Config : Type := mkConfig {
  cfg_MastodonServer : string;
  cfg_ClientSecret : string;
  cfg_AccessToken : string
}.

(** A [*mastodon.Notification] as the stream delivers it.  Its [Status] is a
    pointer, [nil] when the server sent no status with the notification (a
    follow has none); [Notification] above is the notification whose status
    is there. *)
Record NotificationPtr : Type := mkNotificationPtr {
  np_Type : string;
  np_Account : Account;
  np_Status : option Status
}.

(** What the streaming channel delivers: a [*mastodon.NotificationEvent], or
    an event of another kind (update, delete, error, ...). *)
Inductive StreamEvent : Type :=
| NotificationEvent (notification : NotificationPtr)
| OtherEvent (kind : string).

(** What [main] needs before the loop: the decoding of the configuration file
    and the opening of the user stream.  The events are those the channel
    delivers until it is closed. *)
Class Startup (World : Type) : Type := {
  toml_DecodeFile : string -> World -> result Config * World;
  StreamingWSUser : Config -> World -> result (list StreamEvent) * World
}.

(** What the process leaves behind: lines on standard output, and what the
    program does through its collaborators and its log. *)
Inductive Output : Type :=
| Stdout (line : string)
| Did (e : Event).

(** How the process ends: [main] returns, [log.Fatalf] exits with status 1,
    or a panic goes up to the run time. *)
Inductive Exit : Type :=
| Returned
| Fatal
| Crashed (msg : string).

Record main_run (World : Type) : Type := mkMainRun {
  exit : Exit;
  final : World;
  output : list Output
}.

Section Main.

Context {World Image : Type} {services : Services World Image}
  {startup : Startup World}.

(** [handleMention] on what the stream delivers.  [status :=
    notification.Status] only copies the pointer; it is first dereferenced by
    [status.MediaAttachments], at the head of the loop of [collectImages],
    before anything has been done: with a nil status that is a panic. *)
Definition handleMention_ptr (notification : NotificationPtr) : M World unit :=
  match np_Status notification with
  | Some status =>
      handleMention (mkNotification (np_Account notification) status)
  | None => lift (Panic "invalid memory address or nil pointer dereference")
  end.

(** The body of [for event := range events]. *)
Definition main_event (event : StreamEvent) : M World unit :=
  match event with
  | NotificationEvent notification =>
      if np_Type notification =? "mention"
      then handleMention_ptr notification
      else ret tt
  | OtherEvent _ => ret tt
  end.

Definition main_loop (events : list StreamEvent) : M World unit :=
  for_range events main_event.

(** [log.Fatalf] writes the line to the log and exits with status 1. *)
Definition main (w : World) : main_run World :=
  let '(decoded, w1) := toml_DecodeFile "config.toml" w in
  match decoded with
  | Err err =>
      mkMainRun Fatal w1 [Did (EvLog ("Error loading config.toml: " ++ err))]
  | Ok config =>
      let '(opened, w2) := StreamingWSUser config w1 in
      match opened with
      | Err err =>
          mkMainRun Fatal w2
            [Did (EvLog ("Error connecting to streaming API: " ++ err))]
      | Ok events =>
          let r := main_loop events w2 in
          mkMainRun
            match out r with
            | Val _ => Returned
            | Panic msg => Crashed msg
            end
            (world r)
            (Stdout "jpeg-bot is live! Listening for events..." ::
             map Did (trace r))
      end
  end.

End Main.

(** The mentions among the events of the stream, in delivery order. *)
Definition mentions (events : list StreamEvent) : list NotificationPtr :=
  flat_map
    (fun event =>
       match event with
       | NotificationEvent notification =>
           if np_Type notification =? "mention" then [notification] else []
       | OtherEvent _ => []
       end)
    events.

(** The notification came with its status. *)
Definition has_status (notification : NotificationPtr) : Prop :=
  np_Status notification <> None.

(** The byte buffers handed to the media upload, in order. *)
Definition uploaded (t : list Event) : list (list byte) :=
  flat_map (fun e => match e with EvUpload data _ => [data] | _ => [] end) t.

(** The identifiers handed to [GetStatus], in order. *)
Definition looked_up (t : list Event) : list ID :=
  flat_map (fun e => match e with EvGetStatus id _ => [id] | _ => [] end) t.

(** The log line a failed error reply leaves. *)
Definition error_reply_log (r : option error) : list Event :=
  match r with
  | Some err => [EvLog ("Error posting error reply: " ++ err)]
  | None => []
  end.

(** ** A concrete stream and start-up *)
Module DemoStream.

Definition config : Config :=
  mkConfig "https://example.social" "secret" "token".

Definition hello : Notification :=
  Demo.mention "public" [Demo.cat] IrNil.
Definition empty_handed : Notification :=
  Demo.mention "private" [Demo.clip] IrNil.

Definition delivered (ntype : string) (n : Notification) : StreamEvent :=
  NotificationEvent (mkNotificationPtr ntype (n_Account n) (Some (n_Status n))).

(** a mention that came without its status *)
Definition bare : NotificationPtr :=
  mkNotificationPtr "mention" Demo.alice None.

Definition events : list StreamEvent :=
  [ OtherEvent "update";
    delivered "favourite" hello;
    delivered "mention" empty_handed;
    OtherEvent "delete";
    delivered "mention" hello ].

(** Two worlds stand for a failed start-up: the one whose list of failing
    posts is [[0]] has no configuration file, the one whose list is [[3]]
    refuses the stream. *)
Definition decode_file (path : string) (w : Demo.World)
  : result Config * Demo.World :=
  if path =? "config.toml" then
    match Demo.failing_posts w with
    | [0] => (Err "open config.toml: no such file or directory", w)
    | _ => (Ok config, w)
    end
  else (Err "unexpected file", w).

Definition open_stream (c : Config) (w : Demo.World)
  : result (list StreamEvent) * Demo.World :=
  match Demo.failing_posts w with
  | [3] => (Err "parse error", w)
  | _ => (Ok events, w)
  end.

#[export] Instance startup : Startup Demo.World :=
  {| toml_DecodeFile := decode_file;
     StreamingWSUser := open_stream |}.

End DemoStream.

(** * Properties *)

(** ** The monad *)

Section MonadFacts.

Context {World : Type}.

Lemma bind_val {A B} (m : M World A) (f : A -> M World B) (w : World) (a : A) :
  out (m w) = Val a ->
  bind m f w =
    mkRun (out (f a (world (m w)))) (world (f a (world (m w))))
          (trace (m w) ++ trace (f a (world (m w))))%list.
Proof. intros H. unfold bind. rewrite H. reflexivity. Qed.

Lemma bind_panic {A B} (m : M World A) (f : A -> M World B) (w : World) msg :
  out (m w) = Panic msg ->
  bind m f w = mkRun (Panic msg) (world (m w)) (trace (m w)).
Proof. intros H. unfold bind. rewrite H. reflexivity. Qed.

(** A property of events that holds of what [m] does and of what its
    continuation does holds of what the two do in sequence. *)
Lemma Forall_trace_bind {A B} (P : Event -> Prop)
  (m : M World A) (f : A -> M World B) :
  (forall w, Forall P (trace (m w))) ->
  (forall a w, Forall P (trace (f a w))) ->
  forall w, Forall P (trace (bind m f w)).
Proof.
  intros Hm Hf w. unfold bind.
  destruct (out (m w)) as [a|msg]; cbn.
  - apply Forall_app. split; [apply Hm | apply Hf].
  - apply Hm.
Qed.

Lemma Forall_trace_for_range {A} (P : Event -> Prop)
  (body : A -> M World unit) (xs : list A) :
  (forall x w, Forall P (trace (body x w))) ->
  forall w, Forall P (trace (for_range xs body w)).
Proof.
  intros Hbody. induction xs as [|x rest IH]; intros w; cbn [for_range].
  - constructor.
  - apply Forall_trace_bind; auto.
Qed.

Lemma Forall_trace_call {A} (P : Event -> Prop)
  (f : World -> A * World) (ev : A -> Event) :
  (forall a, P (ev a)) -> forall w, Forall P (trace (call f ev w)).
Proof.
  intros H w. unfold call. destruct (f w) as [a w']. cbn. auto.
Qed.

Lemma for_range_total {A} (body : A -> M World unit) (xs : list A) :
  (forall x w, out (body x w) = Val tt) ->
  forall w,
    out (for_range xs body w) = Val tt /\
    trace (for_range xs body w) = List.concat (segments xs body w).
Proof.
  intros Hbody. induction xs as [|x rest IH]; intros w; cbn [for_range segments List.concat].
  - split; reflexivity.
  - rewrite (bind_val _ _ _ (Hbody x w)). cbn [out trace].
    destruct (IH (world (body x w))) as [Ho Ht].
    rewrite Ho, Ht. split; reflexivity.
Qed.

End MonadFacts.

(** ** The Attachment Collector *)

Section Collector.

Context {World Image : Type} {services : Services World Image}.

Lemma append_images_spec (atts : list Attachment) (images : list string) :
  append_images images atts = (images ++ image_urls atts)%list.
Proof.
  unfold append_images, image_urls. revert images.
  induction atts as [|a atts IH]; intros images; cbn [fold_left filter map].
  - now rewrite app_nil_r.
  - rewrite IH. destruct (att_Type a =? "image"); cbn [map].
    + now rewrite <- app_assoc.
    + reflexivity.
Qed.

Lemma length_zero_iff_nil {A} (l : list A) :
  (List.length l =? 0)%nat = true <-> l = [].
Proof. destruct l; cbn; split; congruence. Qed.

(** C1. A post with image attachments yields exactly their URLs, in
    attachment order, and the parent is never fetched (nothing at all is
    done to the outside).  A post without image attachments whose reply
    target is present yields the image URLs of the parent when the fetch
    succeeds, and the empty list when the fetch fails; the failure does not
    propagate. *)
Theorem collectImages_own_or_parent (status : Status) (w : World) :
  let own := image_urls (st_MediaAttachments status) in
  (own <> [] -> collectImages status w = mkRun (Val own) w []) /\
  (forall id parent w',
      own = [] ->
      reply_target (st_InReplyToID status) = Some id ->
      GetStatus id w = (Ok parent, w') ->
      collectImages status w =
        mkRun (Val (image_urls (st_MediaAttachments parent))) w'
              [EvGetStatus id (Ok parent)]) /\
  (forall id e w',
      own = [] ->
      reply_target (st_InReplyToID status) = Some id ->
      GetStatus id w = (Err e, w') ->
      collectImages status w = mkRun (Val []) w' [EvGetStatus id (Err e)]).
Proof.
  cbn zeta. unfold collectImages. rewrite !append_images_spec. cbn [app].
  split; [|split].
  - intros Hown.
    destruct (image_urls (st_MediaAttachments status)) as [|u us] eqn:E;
      [congruence|]. reflexivity.
  - intros id parent w' Hown Hid Hget. rewrite Hown. cbn [List.length Nat.eqb andb].
    destruct (st_InReplyToID status) as [|s|i|ty]; cbn in Hid; try discriminate.
    + destruct (s =? "") eqn:Es; [discriminate|]. injection Hid as <-.
      cbn [ne_empty_string]. rewrite Es. cbn [negb].
      unfold bind, call, ret. cbn. rewrite Hget. cbn.
      now rewrite append_images_spec.
    + injection Hid as <-. cbn [ne_empty_string].
      unfold bind, call, ret. cbn. rewrite Hget. cbn.
      now rewrite append_images_spec.
  - intros id e w' Hown Hid Hget. rewrite Hown. cbn [List.length Nat.eqb andb].
    destruct (st_InReplyToID status) as [|s|i|ty]; cbn in Hid; try discriminate.
    + destruct (s =? "") eqn:Es; [discriminate|]. injection Hid as <-.
      cbn [ne_empty_string]. rewrite Es. cbn [negb].
      unfold bind, call, ret. cbn. rewrite Hget. reflexivity.
    + injection Hid as <-. cbn [ne_empty_string].
      unfold bind, call, ret. cbn. rewrite Hget. reflexivity.
Qed.

(** C3, what the code does.  A reply target of an unrecognised dynamic type
    is logged, and then the parent lookup is made all the same, with the
    zero identifier; what it finds is returned. *)
Theorem collectImages_unrecognized_looks_up (status : Status) (tyname : string)
  (w : World) :
  image_urls (st_MediaAttachments status) = [] ->
  st_InReplyToID status = IrOther tyname ->
  let r := fst (GetStatus "" w) in
  collectImages status w =
    mkRun (Val match r with
               | Ok parent => image_urls (st_MediaAttachments parent)
               | Err _ => []
               end)
          (snd (GetStatus "" w))
          [EvLog ("Unexpected type for InReplyToID: " ++ tyname);
           EvGetStatus "" r].
Proof.
  intros Hown Hir. cbn zeta. unfold collectImages.
  rewrite !append_images_spec, Hown, Hir. cbn.
  unfold bind, call, ret, log_Printf. cbn.
  destruct (GetStatus "" w) as [[parent|e] w']; cbn.
  - now rewrite append_images_spec.
  - reflexivity.
Qed.

(** The collector itself never panics. *)
Lemma collectImages_returns (status : Status) (w : World) :
  exists images, out (collectImages status w) = Val images.
Proof.
  unfold collectImages.
  destruct (_ && _); [|eexists; reflexivity].
  destruct (st_InReplyToID status); unfold bind, call, ret, log_Printf; cbn;
    try (eexists; reflexivity);
    match goal with |- context [GetStatus ?i ?w] =>
      destruct (GetStatus i w) as [[?|?] ?] end; cbn; eexists; reflexivity.
Qed.

(** Apart from a log line, the collector does nothing to the outside but
    fetch a status. *)
Lemma collectImages_trace (status : Status) (w : World) :
  Forall (fun e => is_get_status e = true \/ is_log e = true)
         (trace (collectImages status w)).
Proof.
  unfold collectImages.
  destruct (_ && _); [|constructor].
  destruct (st_InReplyToID status); unfold bind, call, ret, log_Printf; cbn;
    try match goal with |- context [GetStatus ?i ?w] =>
      destruct (GetStatus i w) as [[?|?] ?] end; cbn;
    repeat (apply Forall_cons; [cbn; auto|]); apply Forall_nil.
Qed.

End Collector.

(** ** The Image Decoder *)

Section Decoder.

Context {World Image : Type} {services : Services World Image}.

Lemma reslice_to_fits (s : slice) (n : nat) :
  n <= cap s -> reslice_to s n = Some (firstn n (elems s ++ spare s)).
Proof.
  intros H. unfold reslice_to.
  apply Nat.leb_le in H. now rewrite H.
Qed.


Lemma cap_io_ReadAll (body : list byte) : 512 <= cap (io_ReadAll body).
Proof. unfold cap, io_ReadAll. cbn [elems spare]. rewrite repeat_length. lia. Qed.

(** Once the first eight bytes are there to look at, the decoder returns:
    a bitmap with its format label, or an error. *)
Lemma decodeImage_returns (imgData : slice) :
  8 <= cap imgData -> exists r, decodeImage imgData = Val r.
Proof.
  intros H. unfold decodeImage. rewrite (reslice_to_fits _ H).
  destruct (HasPrefix _ _).
  - destruct (png_Decode _); eexists; reflexivity.
  - destruct (image_Decode _) as [[img format]|e]; [eexists; reflexivity|].
    destruct (webp_Decode _); eexists; reflexivity.
Qed.

Lemma decodeImage_ReadAll_returns (body : list byte) :
  exists r, decodeImage (io_ReadAll body) = Val r.
Proof.
  apply decodeImage_returns. pose proof (cap_io_ReadAll body). lia.
Qed.

(** When the signature is not there and every decoder refuses the bytes, the
    error is the fixed "unsupported image format". *)
Lemma decodeImage_unsupported (imgData : slice) (e1 e2 : error) :
  8 <= cap imgData ->
  HasPrefix (Sprintf_x (firstn 8 (elems imgData ++ spare imgData)))
            "89504e470d0a1a0a" = false ->
  image_Decode (elems imgData) = Err e1 ->
  webp_Decode (elems imgData) = Err e2 ->
  decodeImage imgData = Val (Err "unsupported image format").
Proof.
  intros Hcap Hsig Hany Hwebp. unfold decodeImage.
  now rewrite (reslice_to_fits _ Hcap), Hsig, Hany, Hwebp.
Qed.


Lemma Sprintf_x_png_magic : Sprintf_x png_magic = "89504e470d0a1a0a".
Proof. reflexivity. Qed.

Lemma firstn_png_magic (rest tail : list byte) :
  firstn 8 ((png_magic ++ rest) ++ tail) = png_magic.
Proof. reflexivity. Qed.

(** C5. Bytes that begin with the PNG signature go to the PNG decoder and
    to it alone: its bitmap comes back labelled "png", its failure comes
    back as the error, whatever the generic and the WEBP decoders would
    have made of the bytes. *)
Theorem decodeImage_png_signature (imgData : slice) (rest : list byte) :
  elems imgData = (png_magic ++ rest)%list ->
  decodeImage imgData =
    Val match png_Decode (elems imgData) with
        | Ok img => Ok (img, "png")
        | Err err => Err ("PNG decoding failed: " ++ err)
        end.
Proof.
  intros H. unfold decodeImage.
  rewrite reslice_to_fits.
  - rewrite H, firstn_png_magic, Sprintf_x_png_magic. cbn [HasPrefix].
    change (String.prefix "89504e470d0a1a0a" "89504e470d0a1a0a") with true.
    cbn iota. destruct (png_Decode _); reflexivity.
  - unfold cap. rewrite H, length_app. cbn. lia.
Qed.

End Decoder.

(** ** The Reply Workflow *)

Lemma string_app_assoc (a b c : string) : (a ++ b) ++ c = a ++ (b ++ c).
Proof. induction a as [|x a IH]; cbn; [reflexivity | now rewrite IH]. Qed.

Section Workflow.

Context {World Image : Type} {services : Services World Image}.

(** *** Error replies *)

(** An error reply is one call to [PostStatus]; when it fails there is a
    log line and nothing more. *)
Lemma replyWithError_run (n : Notification) (msg : string) (w : World) :
  replyWithError n msg w =
    let r := fst (PostStatus (error_toot n msg) w) in
    mkRun (Val tt) (snd (PostStatus (error_toot n msg) w))
          (EvPostStatus (error_toot n msg) r ::
           match r with
           | Some err => [EvLog ("Error posting error reply: " ++ err)]
           | None => []
           end).
Proof.
  unfold replyWithError, bind, call, ret, log_Printf. cbn.
  destruct (PostStatus (error_toot n msg) w) as [[err|] w']; reflexivity.
Qed.

Lemma replyWithError_posted (n : Notification) (msg : string) (w : World) :
  posted (trace (replyWithError n msg w)) = [error_toot n msg].
Proof.
  rewrite replyWithError_run. cbn.
  destruct (fst (PostStatus (error_toot n msg) w)); reflexivity.
Qed.

(** *** Download and compression *)

Lemma downloadAndCompressImage_run (url : string) (w : World) :
  downloadAndCompressImage url w =
    let resp := fst (http_Get url w) in
    let w' := snd (http_Get url w) in
    match resp with
    | GetFailed err =>
        mkRun (Val (Err ("failed to download image: " ++ err))) w'
              [EvHttpGet url resp]
    | ReadFailed err =>
        mkRun (Val (Err ("failed to read image data: " ++ err))) w'
              [EvHttpGet url resp]
    | Body bytes =>
        match decodeImage (io_ReadAll bytes) with
        | Val (Err err) =>
            mkRun (Val (Err ("error decoding image: " ++ err))) w'
                  [EvHttpGet url resp]
        | Val (Ok (img, format)) =>
            mkRun (Val (compress img)) w'
                  [EvHttpGet url resp;
                   EvLog ("Decoded image with format: " ++ format)]
        | Panic msg => mkRun (Panic msg) w' [EvHttpGet url resp]
        end
    end.
Proof.
  unfold downloadAndCompressImage, compress, bind, call, ret, lift, log_Printf.
  destruct (http_Get url w) as [[err|err|bytes] w']; cbn; try reflexivity.
  destruct (decodeImage (io_ReadAll bytes)) as [[[img format]|err]|msg]; cbn;
    try reflexivity.
  destruct (jpeg_Encode img 5); reflexivity.
Qed.

Lemma downloadAndCompressImage_returns (url : string) (w : World) :
  exists r, out (downloadAndCompressImage url w) = Val r.
Proof.
  rewrite downloadAndCompressImage_run. cbn zeta.
  destruct (fst (http_Get url w)) as [err|err|bytes];
    try (eexists; reflexivity).
  destruct (decodeImage_ReadAll_returns bytes) as [[[img format]|err] ->];
    eexists; reflexivity.
Qed.

(** *** Upload and success reply *)

Lemma uploadMediaAndReply_run (data : list byte) (n : Notification)
  (visibility : string) (w : World) :
  uploadMediaAndReply data n visibility w =
    let m := fst (UploadMediaFromReader data w) in
    let w1 := snd (UploadMediaFromReader data w) in
    match m with
    | Err err =>
        let r := replyWithError n ("Error uploading media: " ++ err) w1 in
        mkRun (Val tt) (world r) (EvUpload data m :: trace r)
    | Ok media =>
        let reply := success_toot n media (reply_visibility visibility) in
        let p := fst (PostStatus reply w1) in
        let w2 := snd (PostStatus reply w1) in
        match p with
        | None => mkRun (Val tt) w2 [EvUpload data m; EvPostStatus reply None]
        | Some err =>
            let r := replyWithError n ("Error posting reply: " ++ err) w2 in
            mkRun (Val tt) (world r)
                  (EvUpload data m :: EvPostStatus reply p :: trace r)
        end
    end.
Proof.
  unfold uploadMediaAndReply, reply_visibility, bind, call, ret.
  destruct (UploadMediaFromReader data w) as [[media|err] w1]; cbn.
  - destruct (PostStatus _ w1) as [[err|] w2]; cbn.
    + now rewrite replyWithError_run.
    + reflexivity.
  - now rewrite replyWithError_run.
Qed.

(** *** One image *)

Lemma handleMention_image_returns (n : Notification) (url : string) (w : World) :
  out (handleMention_image n url w) = Val tt.
Proof.
  unfold handleMention_image.
  destruct (downloadAndCompressImage_returns url w) as [r Hr].
  rewrite (bind_val _ _ _ Hr). cbn [out].
  destruct r as [data|err].
  - rewrite uploadMediaAndReply_run. cbn zeta.
    destruct (fst (UploadMediaFromReader data _)); [|reflexivity].
    destruct (fst (PostStatus _ _)); reflexivity.
  - now rewrite replyWithError_run.
Qed.

Lemma In_replyWithError (n : Notification) (msg : string) (w : World) :
  exists r, In (EvPostStatus (error_toot n msg) r) (trace (replyWithError n msg w)).
Proof.
  rewrite replyWithError_run. cbn zeta. cbn [trace].
  eexists. left. reflexivity.
Qed.

Lemma fetched_replyWithError (n : Notification) (msg : string) (w : World) :
  fetched (trace (replyWithError n msg w)) = [].
Proof.
  rewrite replyWithError_run. cbn.
  destruct (fst (PostStatus _ _)); reflexivity.
Qed.

Lemma handleMention_image_attempt (n : Notification) (url : string) (w : World) :
  attempt n url (trace (handleMention_image n url w)).
Proof.
  unfold handleMention_image, bind.
  rewrite downloadAndCompressImage_run. cbn zeta.
  destruct (http_Get url w) as [[err|err|bytes] w']; cbn [fst snd out world trace].
  - destruct (In_replyWithError n
                ("Error compressing image: " ++ ("failed to download image: " ++ err)) w')
      as [r Hr].
    cbn [app]. eapply attempt_failed; [apply fetched_replyWithError | exact Hr].
  - destruct (In_replyWithError n
                ("Error compressing image: " ++ ("failed to read image data: " ++ err)) w')
      as [r Hr].
    cbn [app]. eapply attempt_failed; [apply fetched_replyWithError | exact Hr].
  - destruct (decodeImage_ReadAll_returns bytes) as [[[img format]|err] ->];
      cbn [out world trace].
    + unfold compress. destruct (jpeg_Encode img 5) as [data|err] eqn:Eenc.
      * rewrite uploadMediaAndReply_run. cbn zeta.
        destruct (UploadMediaFromReader data w') as [[media|err] w1];
          cbn [fst snd].
        -- destruct (PostStatus _ w1) as [[err|] w2]; cbn [fst snd trace app].
           ++ destruct (In_replyWithError n ("Error posting reply: " ++ err) w2)
                as [r Hr].
              eapply attempt_failed.
              ** cbn. apply fetched_replyWithError.
              ** right. right. right. exact Hr.
           ++ now apply attempt_succeeded with (img := img).
        -- cbn [trace app].
           destruct (In_replyWithError n ("Error uploading media: " ++ err) w1)
             as [r Hr].
           eapply attempt_failed.
           ++ cbn. apply fetched_replyWithError.
           ++ right. right. exact Hr.
      * destruct (In_replyWithError n
                    ("Error compressing image: " ++ ("error encoding to jpeg: " ++ err)) w')
          as [r Hr].
        cbn [app]. eapply attempt_failed.
        -- cbn. apply fetched_replyWithError.
        -- right. exact Hr.
    + destruct (In_replyWithError n
                  ("Error compressing image: " ++ ("error decoding image: " ++ err)) w')
        as [r Hr].
      cbn [app]. eapply attempt_failed; [apply fetched_replyWithError | exact Hr].
Qed.

(** *** The whole mention *)

Lemma fetched_app (t1 t2 : list Event) :
  fetched (t1 ++ t2) = (fetched t1 ++ fetched t2)%list.
Proof. apply flat_map_app. Qed.

Lemma posted_app (t1 t2 : list Event) :
  posted (t1 ++ t2) = (posted t1 ++ posted t2)%list.
Proof. apply flat_map_app. Qed.

(** What the collector does leaves no post, no download and no upload. *)
Lemma collector_events_quiet (t : list Event) :
  Forall (fun e => is_get_status e = true \/ is_log e = true) t ->
  posted t = [] /\ fetched t = [] /\ filter is_upload t = [].
Proof.
  induction 1 as [|e t He _ IH]; [repeat split|].
  destruct IH as (Hp & Hf & Hu).
  destruct e; cbn in He; destruct He as [He|He]; try discriminate;
    cbn; auto.
Qed.

Lemma fetched_attempt (n : Notification) (url : string) (seg : list Event) :
  attempt n url seg -> fetched seg = [url].
Proof.
  intros [bytes format img data media _|resp rest msg r Hrest _].
  - reflexivity.
  - change (fetched (EvHttpGet url resp :: rest)) with (url :: fetched rest).
    now rewrite Hrest.
Qed.

Lemma fetched_attempts (n : Notification) (urls : list string)
  (segs : list (list Event)) :
  Forall2 (attempt n) urls segs -> fetched (List.concat segs) = urls.
Proof.
  induction 1 as [|url seg urls segs Hseg _ IH]; cbn; [reflexivity|].
  rewrite fetched_app, (fetched_attempt Hseg), IH. reflexivity.
Qed.

Lemma segments_attempts (n : Notification) (urls : list string) (w : World) :
  Forall2 (attempt n) urls (segments urls (handleMention_image n) w).
Proof.
  revert w. induction urls as [|url urls IH]; intros w; cbn [segments].
  - constructor.
  - constructor; [apply handleMention_image_attempt | apply IH].
Qed.

(** C6. When the collector finds images, the handler returns (it does not
    panic); what it does after the collection splits into one attempt per
    URL, in the order of the list; every attempt starts with the fetch of
    its URL and either went through every stage or had an error reply
    posted; so the URLs fetched are exactly the URLs found, in order,
    whatever happened to each. *)
Theorem handleMention_attempts_every_image (n : Notification) (w : World)
  (images : list string) :
  out (collectImages (n_Status n) w) = Val images ->
  images <> [] ->
  let c := collectImages (n_Status n) w in
  let r := handleMention n w in
  out r = Val tt /\
  fetched (trace r) = images /\
  exists segs : list (list Event),
    trace r = (trace c ++ List.concat segs)%list /\
    Forall2 (attempt n) images segs.
Proof.
  intros Hc Hne. cbn zeta. unfold handleMention.
  rewrite (bind_val _ _ _ Hc). cbn [out trace].
  destruct images as [|url urls]; [congruence|].
  cbn [List.length Nat.eqb].
  destruct (for_range_total (handleMention_image n) (url :: urls)
              (handleMention_image_returns n)
              (world (collectImages (n_Status n) w))) as [Ho Ht].
  rewrite Ho, Ht.
  pose proof (segments_attempts n (url :: urls)
                (world (collectImages (n_Status n) w))) as Hsegs.
  destruct (collector_events_quiet (collectImages_trace (n_Status n) w))
    as (_ & Hf & _).
  split; [reflexivity|]. split.
  - rewrite fetched_app, Hf, (fetched_attempts Hsegs). reflexivity.
  - eexists. split; [reflexivity | exact Hsegs].
Qed.

(** C7. When the collector finds nothing, the handler makes one call to
    [PostStatus], with the text "@<acct> Oops! No images found to
    process."; after the collection that call (and the log line of its
    failure, if it fails) is all it does: nothing is downloaded, decoded,
    compressed or uploaded. *)
Theorem handleMention_no_images (n : Notification) (w : World) :
  out (collectImages (n_Status n) w) = Val [] ->
  let c := collectImages (n_Status n) w in
  let r := handleMention n w in
  let reply := error_toot n "No images found to process." in
  out r = Val tt /\
  (exists res : option error,
      trace r =
        (trace c ++
         EvPostStatus reply res ::
         match res with
         | Some err => [EvLog ("Error posting error reply: " ++ err)]
         | None => []
         end)%list) /\
  posted (trace r) = [reply] /\
  toot_Status reply =
    "@" ++ acc_Acct (n_Account n) ++ " Oops! No images found to process." /\
  contains (toot_Status reply) "No images found to process" /\
  fetched (trace r) = [] /\
  filter is_upload (trace r) = [].
Proof.
  intros Hc. cbn zeta. unfold handleMention.
  rewrite (bind_val _ _ _ Hc). cbn [out trace List.length Nat.eqb world].
  destruct (collector_events_quiet (collectImages_trace (n_Status n) w))
    as (Hp & Hf & Hu).
  rewrite replyWithError_run. cbn zeta. cbn [out trace].
  split; [reflexivity|]. split; [eexists; reflexivity|].
  rewrite posted_app, fetched_app, filter_app, Hp, Hf, Hu. cbn [app].
  split; [|split; [|split; [|split]]].
  - destruct (fst (PostStatus _ _)); reflexivity.
  - reflexivity.
  - exists ("@" ++ acc_Acct (n_Account n) ++ " Oops! "), ".".
    cbn [error_toot toot_Status]. now rewrite !string_app_assoc.
  - destruct (fst (PostStatus _ _)); reflexivity.
  - destruct (fst (PostStatus _ _)); reflexivity.
Qed.

(** *** What gets posted *)

Lemma posts_satisfy_posted (P : Toot -> Prop) (t : list Event) :
  Forall (posts_satisfy P) t -> Forall P (posted t).
Proof.
  induction 1 as [|e t He _ IH]; [constructor|].
  destruct e; cbn in *; auto.
Qed.

Section Posts.

Variable n : Notification.
Variable P : Toot -> Prop.
Hypothesis P_error : forall msg, P (error_toot n msg).
Hypothesis P_success :
  forall media,
    P (success_toot n media (reply_visibility (st_Visibility (n_Status n)))).

Lemma replyWithError_posts (msg : string) (w : World) :
  Forall (posts_satisfy P) (trace (replyWithError n msg w)).
Proof.
  rewrite replyWithError_run. cbn zeta. cbn [trace].
  constructor; [apply P_error|].
  destruct (fst (PostStatus _ _)); repeat constructor.
Qed.

Lemma downloadAndCompressImage_posts (url : string) (w : World) :
  Forall (posts_satisfy P) (trace (downloadAndCompressImage url w)).
Proof.
  rewrite downloadAndCompressImage_run. cbn zeta.
  destruct (fst (http_Get url w)) as [err|err|bytes];
    try (repeat constructor).
  destruct (decodeImage (io_ReadAll bytes)) as [[[img format]|err]|msg];
    repeat constructor.
Qed.

Lemma uploadMediaAndReply_posts (data : list byte) (w : World) :
  Forall (posts_satisfy P)
         (trace (uploadMediaAndReply data n (st_Visibility (n_Status n)) w)).
Proof.
  rewrite uploadMediaAndReply_run. cbn zeta.
  destruct (fst (UploadMediaFromReader data w)) as [media|err]; cbn [trace].
  - destruct (fst (PostStatus _ _)) as [err|] eqn:E; cbn [trace].
    + constructor; [exact I|]. constructor; [apply P_success|].
      apply replyWithError_posts.
    + constructor; [exact I|]. constructor; [apply P_success|]. constructor.
  - constructor; [exact I|]. apply replyWithError_posts.
Qed.

Lemma handleMention_posts (w : World) :
  Forall (posts_satisfy P) (trace (handleMention n w)).
Proof.
  unfold handleMention. apply Forall_trace_bind.
  - intros w'. eapply Forall_impl; [|apply collectImages_trace].
    intros [] [H|H]; cbn in H; try discriminate; exact I.
  - intros images w'. destruct (_ =? _)%nat.
    + apply replyWithError_posts.
    + apply Forall_trace_for_range. intros url w''.
      unfold handleMention_image. apply Forall_trace_bind.
      * apply downloadAndCompressImage_posts.
      * intros [data|err] w3;
          [apply uploadMediaAndReply_posts | apply replyWithError_posts].
Qed.

End Posts.

(** C2. The success reply is produced with the downgraded visibility and
    the error replies with the original one.
    - Of everything [handleMention] posts, a success reply has visibility
      "unlisted" when the mentioning status was "public" and the visibility
      of the mentioning status otherwise; an error reply has the visibility
      of the mentioning status, "public" included.
    - Every collected image is run through the loop body.
    - In the loop body, an image that was compressed and uploaded has its
      success reply handed to [PostStatus] with that visibility; an image
      whose compression failed has its error reply handed to [PostStatus].
    - [uploadMediaAndReply], after a successful upload, posts the success
      reply next, "unlisted" for "public" and unchanged otherwise.
    - [replyWithError] posts the error reply, and nothing but its own
      failure's log line, with the visibility of the mentioning status. *)
Theorem reply_visibility_policy (n : Notification) (w : World) :
  let original := st_Visibility (n_Status n) in
  let downgraded := if original =? "public" then "unlisted" else original in
  Forall
    (fun t =>
       (exists media,
           t = success_toot n media (toot_Visibility t) /\
           toot_Visibility t = downgraded) \/
       (exists msg,
           t = error_toot n msg /\ toot_Visibility t = original))
    (posted (trace (handleMention n w))) /\
  (forall images,
      out (collectImages (n_Status n) w) = Val images ->
      images <> [] ->
      trace (handleMention n w) =
        (trace (collectImages (n_Status n) w) ++
         List.concat
           (segments images (handleMention_image n)
                     (world (collectImages (n_Status n) w))))%list) /\
  (forall url w0 data media w1,
      out (downloadAndCompressImage url w0) = Val (Ok data) ->
      UploadMediaFromReader data (world (downloadAndCompressImage url w0))
        = (Ok media, w1) ->
      exists res,
        In (EvPostStatus (success_toot n media downgraded) res)
           (trace (handleMention_image n url w0)) /\
        toot_Visibility (success_toot n media downgraded) = downgraded) /\
  (forall url w0 err,
      out (downloadAndCompressImage url w0) = Val (Err err) ->
      exists res,
        In (EvPostStatus (error_toot n ("Error compressing image: " ++ err)) res)
           (trace (handleMention_image n url w0)) /\
        toot_Visibility (error_toot n ("Error compressing image: " ++ err))
          = original) /\
  (forall data visibility w0 media w1,
      UploadMediaFromReader data w0 = (Ok media, w1) ->
      let reply :=
        success_toot n media
          (if visibility =? "public" then "unlisted" else visibility) in
      exists rest,
        trace (uploadMediaAndReply data n visibility w0) =
          EvUpload data (Ok media) ::
          EvPostStatus reply (fst (PostStatus reply w1)) :: rest /\
        toot_Visibility reply =
          if visibility =? "public" then "unlisted" else visibility) /\
  (forall msg w0,
      let res := fst (PostStatus (error_toot n msg) w0) in
      trace (replyWithError n msg w0) =
        EvPostStatus (error_toot n msg) res ::
        match res with
        | Some err => [EvLog ("Error posting error reply: " ++ err)]
        | None => []
        end /\
      toot_Visibility (error_toot n msg) = original).
Proof.
  cbn zeta. split; [|split; [|split; [|split; [|split]]]].
  - apply posts_satisfy_posted, handleMention_posts.
    + intros msg. right. exists msg. split; reflexivity.
    + intros media. left. exists media. split; reflexivity.
  - intros images Hc Hne. unfold handleMention.
    rewrite (bind_val _ _ _ Hc). cbn [trace].
    destruct images as [|url urls]; [congruence|]. cbn [List.length Nat.eqb].
    destruct (for_range_total (handleMention_image n) (url :: urls)
                (handleMention_image_returns n)
                (world (collectImages (n_Status n) w))) as [_ Ht].
    now rewrite Ht.
  - intros url w0 data media w1 Hd Hup.
    unfold handleMention_image. rewrite (bind_val _ _ _ Hd). cbn [trace].
    rewrite uploadMediaAndReply_run. cbn zeta. rewrite Hup. cbn [fst snd].
    unfold reply_visibility.
    eexists. split; [|reflexivity].
    apply in_or_app. right.
    destruct (fst (PostStatus _ w1)) eqn:E; cbn [trace];
      right; left; rewrite <- E; reflexivity.
  - intros url w0 err Hd.
    unfold handleMention_image. rewrite (bind_val _ _ _ Hd). cbn [trace].
    rewrite replyWithError_run. cbn zeta. cbn [trace].
    eexists. split; [|reflexivity].
    apply in_or_app. right. left. reflexivity.
  - intros data visibility w0 media w1 Hup. cbn zeta.
    rewrite uploadMediaAndReply_run. cbn zeta. rewrite Hup. cbn [fst snd].
    unfold reply_visibility.
    destruct (fst (PostStatus _ w1)) eqn:E; cbn [trace];
      (eexists; split; [|reflexivity]); rewrite <- E; reflexivity.
  - intros msg w0. cbn zeta. rewrite replyWithError_run. split; reflexivity.
Qed.

(** C8, as amended.  When the post of the success reply fails, the success
    reply is not posted again; one error reply "Error posting reply: ..."
    is attempted instead, at the visibility of the mentioning status; when
    that attempt fails too its failure is logged, and nothing more is
    done for the image. *)
Theorem failed_success_post_becomes_error_reply (data : list byte)
  (n : Notification) (visibility : string) (w w1 w2 : World)
  (media : Attachment) (err : error) :
  UploadMediaFromReader data w = (Ok media, w1) ->
  PostStatus (success_toot n media (reply_visibility visibility)) w1
    = (Some err, w2) ->
  let reply := success_toot n media (reply_visibility visibility) in
  let apology := error_toot n ("Error posting reply: " ++ err) in
  let res := fst (PostStatus apology w2) in
  uploadMediaAndReply data n visibility w =
    mkRun (Val tt) (snd (PostStatus apology w2))
          ([EvUpload data (Ok media);
            EvPostStatus reply (Some err);
            EvPostStatus apology res] ++
           match res with
           | Some err' => [EvLog ("Error posting error reply: " ++ err')]
           | None => []
           end)%list.
Proof.
  intros Hup Hpost. cbn zeta.
  rewrite uploadMediaAndReply_run. cbn zeta.
  rewrite Hup. cbn [fst snd]. rewrite Hpost. cbn [fst snd].
  rewrite replyWithError_run. reflexivity.
Qed.

(** X18. An image that is fetched and decoded is encoded by [jpeg.Encode] at
    quality 5, and the outcome of that call is the outcome of the step: its
    bytes as they are, or its error behind "error encoding to jpeg: ".  The
    URL, the state of the world and the format label play no part. *)
Theorem compression_at_quality_5 (url : string) (w : World)
  (bytes : list byte) (img : Image) (format : string) :
  fst (http_Get url w) = Body bytes ->
  decodeImage (io_ReadAll bytes) = Val (Ok (img, format)) ->
  out (downloadAndCompressImage url w) =
    Val match jpeg_Encode img 5 with
        | Ok buf => Ok buf
        | Err err => Err ("error encoding to jpeg: " ++ err)
        end.
Proof.
  intros Hget Hdec.
  rewrite downloadAndCompressImage_run. cbn zeta.
  rewrite Hget, Hdec. reflexivity.
Qed.

(** C10. Everything [handleMention] posts is a success reply or an error
    reply "@<acct> Oops! <message>" to the mentioning status.  When the
    download-and-compress step of an image fails, at whichever stage, the
    one thing posted for the image is the error reply whose message is
    "Error compressing image: " followed by the error of the stage: a
    failed download, a failed read of the body, a failed decode and a
    failed encode are all reported under that prefix. *)
Theorem error_replies_say_compressing (n : Notification) :
  (forall w,
      Forall
        (fun t =>
           (exists media visibility, t = success_toot n media visibility) \/
           (exists msg,
               t = error_toot n msg /\
               toot_Status t = "@" ++ acc_Acct (n_Account n) ++ " Oops! " ++ msg /\
               toot_InReplyToID t = st_ID (n_Status n)))
        (posted (trace (handleMention n w)))) /\
  (forall url w err,
      out (downloadAndCompressImage url w) = Val (Err err) ->
      posted (trace (handleMention_image n url w)) =
        [error_toot n ("Error compressing image: " ++ err)] /\
      toot_Status (error_toot n ("Error compressing image: " ++ err)) =
        "@" ++ acc_Acct (n_Account n) ++ " Oops! Error compressing image: " ++ err /\
      match fst (http_Get url w) with
      | GetFailed e => err = "failed to download image: " ++ e
      | ReadFailed e => err = "failed to read image data: " ++ e
      | Body _ =>
          (exists e, err = "error decoding image: " ++ e) \/
          (exists e, err = "error encoding to jpeg: " ++ e)
      end).
Proof.
  split.
  - intros w. apply posts_satisfy_posted, handleMention_posts.
    + intros msg. right. exists msg. repeat split.
    + intros media. left. eauto.
  - intros url w err Hout. split; [|split].
    + unfold handleMention_image. rewrite (bind_val _ _ _ Hout). cbn [trace].
      rewrite posted_app, replyWithError_posted.
      assert (Hq : posted (trace (downloadAndCompressImage url w)) = []).
      { rewrite downloadAndCompressImage_run. cbn zeta.
        destruct (fst (http_Get url w)) as [e|e|bytes]; try reflexivity.
        destruct (decodeImage (io_ReadAll bytes)) as [[[img format]|e]|msg];
          reflexivity. }
      now rewrite Hq.
    + reflexivity.
    + rewrite downloadAndCompressImage_run in Hout. cbn zeta in Hout.
      destruct (fst (http_Get url w)) as [e|e|bytes].
      * cbn [out] in Hout. now injection Hout as <-.
      * cbn [out] in Hout. now injection Hout as <-.
      * destruct (decodeImage (io_ReadAll bytes)) as [[[img format]|e]|msg];
          cbn [out] in Hout.
        -- right. unfold compress in Hout.
           destruct (jpeg_Encode img 5) as [buf|e]; [discriminate|].
           exists e. now injection Hout as <-.
        -- left. exists e. now injection Hout as <-.
        -- discriminate.
Qed.

End Workflow.

(** * Further properties of the code *)

(** ** The collector, beyond the claims *)

Section CollectorMore.

Context {World Image : Type} {services : Services World Image}.

(** X1. A post without image attachments whose reply target is nil or the
    empty string yields the empty list and nothing is done: no lookup, no log
    line, the world is left as it was. *)
Theorem collectImages_no_target (status : Status) (w : World) :
  image_urls (st_MediaAttachments status) = [] ->
  st_InReplyToID status = IrNil \/ st_InReplyToID status = IrString "" ->
  collectImages status w = mkRun (Val []) w [].
Proof.
  intros Hown Hir. unfold collectImages.
  rewrite !append_images_spec, Hown. cbn [app List.length Nat.eqb andb].
  destruct Hir as [-> | ->]; reflexivity.
Qed.

Lemma looked_up_app (t1 t2 : list Event) :
  looked_up (t1 ++ t2) = (looked_up t1 ++ looked_up t2)%list.
Proof. apply flat_map_app. Qed.

Lemma uploaded_app (t1 t2 : list Event) :
  uploaded (t1 ++ t2) = (uploaded t1 ++ uploaded t2)%list.
Proof. apply flat_map_app. Qed.

(** The footprint of the collector on the outside. *)
Lemma collectImages_footprint (status : Status) (w : World) :
  let c := collectImages status w in
  (exists images, out c = Val images) /\
  List.length (looked_up (trace c)) <= 1 /\
  posted (trace c) = [] /\
  fetched (trace c) = [] /\
  uploaded (trace c) = [].
Proof.
  cbn zeta. split; [apply collectImages_returns|].
  unfold collectImages.
  destruct (_ && _); [|cbn; repeat split; lia].
  destruct (st_InReplyToID status); unfold bind, call, ret, log_Printf; cbn;
    try match goal with |- context [GetStatus ?i ?w] =>
      destruct (GetStatus i w) as [[?|?] ?] end; cbn;
    repeat split; lia.
Qed.

(** X2. Whatever the post, the collector returns a list (it never panics),
    asks for at most one status (the parent of the parent is never followed),
    and neither posts, downloads nor uploads. *)
Theorem collectImages_at_most_one_lookup (status : Status) (w : World) :
  let c := collectImages status w in
  (exists images, out c = Val images) /\
  List.length (looked_up (trace c)) <= 1 /\
  posted (trace c) = [] /\
  fetched (trace c) = [] /\
  uploaded (trace c) = [].
Proof. apply collectImages_footprint. Qed.

(** X16. The two representations of a reply target are one to the collector:
    a non-empty raw string and the typed identifier of the same text give the
    same run, lookup and result included. *)
Theorem collectImages_representation_irrelevant (id visibility : string)
  (atts : list Attachment) (target : string) (w : World) :
  target <> "" ->
  collectImages (mkStatus id visibility atts (IrString target)) w =
  collectImages (mkStatus id visibility atts (IrID target)) w.
Proof.
  intros Hne. unfold collectImages. cbn [st_MediaAttachments st_InReplyToID].
  cbn [ne_empty_string].
  apply String.eqb_neq in Hne. rewrite Hne. cbn [negb].
  destruct (_ =? _)%nat; reflexivity.
Qed.

(** X17. With the empty text they part: on a post without images, an empty
    raw string means no reply target and nothing is looked up, while an empty
    typed identifier passes the test [InReplyToID != ""] and the status of
    identifier "" is asked for. *)
Theorem collectImages_empty_typed_id_is_looked_up (id visibility : string)
  (atts : list Attachment) (w : World) :
  image_urls atts = [] ->
  looked_up (trace (collectImages (mkStatus id visibility atts (IrString "")) w))
    = [] /\
  looked_up (trace (collectImages (mkStatus id visibility atts (IrID "")) w))
    = [""].
Proof.
  intros Hown. unfold collectImages. cbn [st_MediaAttachments st_InReplyToID].
  rewrite !append_images_spec, Hown. cbn.
  unfold bind, call, ret. cbn.
  destruct (GetStatus "" w) as [[parent|e] w']; split; reflexivity.
Qed.

End CollectorMore.

(** ** The decoder, beyond the claims *)

Section DecoderMore.

Context {World Image : Type} {services : Services World Image}.

Lemma hex_digit_inj (n m : N) :
  (n < 16)%N -> (m < 16)%N -> hex_digit n = hex_digit m -> n = m.
Proof.
  intros Hn Hm.
  assert (En : In n [0; 1; 2; 3; 4; 5; 6; 7; 8; 9; 10; 11; 12; 13; 14; 15]%N).
  { cbn. lia. }
  assert (Em : In m [0; 1; 2; 3; 4; 5; 6; 7; 8; 9; 10; 11; 12; 13; 14; 15]%N).
  { cbn. lia. }
  cbn in En, Em.
  repeat (destruct En as [<-|En]; [| ]); try contradiction;
    repeat (destruct Em as [<-|Em]; [| ]); try contradiction;
    cbn; intros H; (reflexivity || discriminate H).
Qed.

Lemma hex_byte_inj (b b' : byte) :
  hex_digit (Byte.to_N b / 16) = hex_digit (Byte.to_N b' / 16) ->
  hex_digit (Byte.to_N b mod 16) = hex_digit (Byte.to_N b' mod 16) ->
  b = b'.
Proof.
  intros Hhi Hlo.
  pose proof (Byte.to_N_bounded b) as Hb.
  pose proof (Byte.to_N_bounded b') as Hb'.
  apply hex_digit_inj in Hhi;
    [| apply N.Div0.div_lt_upper_bound; lia
     | apply N.Div0.div_lt_upper_bound; lia].
  apply hex_digit_inj in Hlo; [| apply N.mod_lt; lia | apply N.mod_lt; lia].
  assert (E : Byte.to_N b = Byte.to_N b').
  { rewrite (N.div_mod (Byte.to_N b) 16), (N.div_mod (Byte.to_N b') 16) by lia.
    now rewrite Hhi, Hlo. }
  apply (f_equal Byte.of_N) in E. rewrite !Byte.of_to_N in E.
  now injection E.
Qed.

(** The hexadecimal rendering tells byte sequences apart. *)
Lemma Sprintf_x_inj (bs bs' : list byte) :
  Sprintf_x bs = Sprintf_x bs' -> bs = bs'.
Proof.
  revert bs'. induction bs as [|b bs IH]; intros [|b' bs'] H;
    cbn [Sprintf_x] in H; try discriminate; [reflexivity|].
  injection H as Hhi Hlo Hrest.
  f_equal; [now apply hex_byte_inj | now apply IH].
Qed.

Lemma Sprintf_x_length (bs : list byte) :
  String.length (Sprintf_x bs) = 2 * List.length bs.
Proof.
  induction bs as [|b bs IH]; cbn [Sprintf_x String.length List.length];
    [reflexivity | lia].
Qed.

Lemma prefix_same_length (p s : string) :
  String.length p = String.length s -> String.prefix p s = true -> p = s.
Proof.
  revert s. induction p as [|a p IH]; intros [|b s] Hlen H;
    cbn in Hlen, H; try discriminate; [reflexivity|].
  destruct (Ascii.ascii_dec a b) as [->|]; [|discriminate].
  f_equal. apply IH; [lia | exact H].
Qed.

(** The test on the rendering is a test on the bytes. *)
Lemma signature_test_iff (head : list byte) :
  List.length head = 8 ->
  HasPrefix (Sprintf_x head) "89504e470d0a1a0a" = true <-> head = png_magic.
Proof.
  intros Hlen. split.
  - intros H. apply Sprintf_x_inj. rewrite Sprintf_x_png_magic.
    symmetry. apply prefix_same_length; [|exact H].
    rewrite Sprintf_x_length, Hlen. reflexivity.
  - intros ->. reflexivity.
Qed.

(** X3. The signature test of [decodeImage], made on the hexadecimal
    rendering of eight bytes, is exact: it succeeds on the PNG signature and
    on no other eight bytes. *)
Theorem png_test_exact (head : list byte) :
  List.length head = 8 ->
  HasPrefix (Sprintf_x head) "89504e470d0a1a0a" = true <-> head = png_magic.
Proof. apply signature_test_iff. Qed.

(** X4. The order of the fallback.  When the buffer does not start with the
    signature, the generic decoder goes first and its answer is final, with
    its own format label; WEBP is tried only when it fails, and labelled
    "webp"; when both fail the error is "unsupported image format", the
    errors of the two decoders are dropped, and the PNG decoder is not
    consulted. *)
Theorem decodeImage_fallback_order (imgData : slice) :
  8 <= cap imgData ->
  firstn 8 (elems imgData ++ spare imgData) <> png_magic ->
  decodeImage imgData =
    Val match image_Decode (elems imgData) with
        | Ok (img, format) => Ok (img, format)
        | Err _ =>
            match webp_Decode (elems imgData) with
            | Ok img => Ok (img, "webp")
            | Err _ => Err "unsupported image format"
            end
        end.
Proof.
  intros Hcap Hsig. unfold decodeImage. rewrite (reslice_to_fits _ Hcap).
  destruct (HasPrefix _ _) eqn:E.
  - exfalso. apply Hsig. apply signature_test_iff; [|exact E].
    apply firstn_length_le. unfold cap in Hcap. rewrite length_app. exact Hcap.
  - destruct (image_Decode _) as [[img format]|e]; [reflexivity|].
    destruct (webp_Decode _); reflexivity.
Qed.

(** X5. The decoder has two errors and no other: the fixed "unsupported
    image format", and "PNG decoding failed: " followed by the error of the
    PNG decoder.  What the generic and the WEBP decoders complain about is
    never passed on. *)
Theorem decodeImage_errors (imgData : slice) (err : error) :
  decodeImage imgData = Val (Err err) ->
  err = "unsupported image format" \/
  exists e, png_Decode (elems imgData) = Err e /\
            err = "PNG decoding failed: " ++ e.
Proof.
  unfold decodeImage. destruct (reslice_to imgData 8); [|discriminate].
  destruct (HasPrefix _ _).
  - destruct (png_Decode _) as [img|e] eqn:E; [discriminate|].
    intros H. right. exists e. split; [reflexivity|]. now injection H as <-.
  - destruct (image_Decode _) as [[img format]|e]; [discriminate|].
    destruct (webp_Decode _); [discriminate|].
    intros H. left. now injection H as <-.
Qed.

End DecoderMore.

(** ** The reply workflow, beyond the claims *)

Section WorkflowMore.

Context {World Image : Type} {services : Services World Image}.

(** The footprint of the download on the outside. *)
Lemma downloadAndCompressImage_footprint (url : string) (w : World) :
  let r := downloadAndCompressImage url w in
  (exists v, out r = Val v) /\
  world r = snd (http_Get url w) /\
  fetched (trace r) = [url] /\
  posted (trace r) = [] /\
  uploaded (trace r) = [] /\
  looked_up (trace r) = [].
Proof.
  cbn zeta. split; [apply downloadAndCompressImage_returns|].
  rewrite downloadAndCompressImage_run. cbn zeta.
  destruct (fst (http_Get url w)) as [e|e|bytes];
    try (repeat (split; [reflexivity|]); reflexivity).
  destruct (decodeImage (io_ReadAll bytes)) as [[[img format]|e]|msg];
    repeat (split; [reflexivity|]); reflexivity.
Qed.

(** X6. Downloading and compressing an image returns, with the bytes or with
    an error, and never panics; it makes exactly one HTTP request, for the URL
    it was given, leaves the world as that request left it, and neither
    posts, uploads nor looks up a status. *)
Theorem downloadAndCompressImage_one_fetch (url : string) (w : World) :
  let r := downloadAndCompressImage url w in
  (exists v, out r = Val v) /\
  world r = snd (http_Get url w) /\
  fetched (trace r) = [url] /\
  posted (trace r) = [] /\
  uploaded (trace r) = [] /\
  looked_up (trace r) = [].
Proof. apply downloadAndCompressImage_footprint. Qed.

(** What comes back as bytes is an output of the JPEG encoder at quality 5. *)
Lemma downloadAndCompressImage_ok (url : string) (w : World) (data : list byte) :
  out (downloadAndCompressImage url w) = Val (Ok data) ->
  exists img, jpeg_Encode img 5 = Ok data.
Proof.
  rewrite downloadAndCompressImage_run. cbn zeta.
  destruct (fst (http_Get url w)) as [e|e|bytes]; try discriminate.
  destruct (decodeImage (io_ReadAll bytes)) as [[[img format]|e]|msg];
    try discriminate.
  cbn [out]. unfold compress.
  destruct (jpeg_Encode img 5) as [buf|e] eqn:E; [|discriminate].
  intros H. exists img. now injection H as <-.
Qed.

(** X7. When the download-and-compress step fails, all that follows for the
    image is the error reply (and the log line of its failure): nothing is
    uploaded and no success reply goes out. *)
Theorem failed_image_is_not_uploaded (n : Notification) (url : string)
  (w : World) (err : error) :
  out (downloadAndCompressImage url w) = Val (Err err) ->
  let d := downloadAndCompressImage url w in
  let apology := error_toot n ("Error compressing image: " ++ err) in
  let res := fst (PostStatus apology (world d)) in
  handleMention_image n url w =
    mkRun (Val tt) (snd (PostStatus apology (world d)))
          (trace d ++ EvPostStatus apology res :: error_reply_log res)%list /\
  uploaded (trace (handleMention_image n url w)) = [].
Proof.
  intros Hout. cbn zeta.
  assert (E : handleMention_image n url w =
              mkRun (Val tt)
                (snd (PostStatus (error_toot n ("Error compressing image: " ++ err))
                        (world (downloadAndCompressImage url w))))
                (trace (downloadAndCompressImage url w) ++
                 EvPostStatus (error_toot n ("Error compressing image: " ++ err))
                   (fst (PostStatus (error_toot n ("Error compressing image: " ++ err))
                           (world (downloadAndCompressImage url w)))) ::
                 error_reply_log
                   (fst (PostStatus (error_toot n ("Error compressing image: " ++ err))
                           (world (downloadAndCompressImage url w)))))%list).
  { unfold handleMention_image. rewrite (bind_val _ _ _ Hout).
    rewrite replyWithError_run. reflexivity. }
  split; [exact E|].
  rewrite E. cbn [trace]. rewrite uploaded_app.
  destruct (downloadAndCompressImage_footprint url w) as (_ & _ & _ & _ & -> & _).
  cbn. destruct (fst (PostStatus _ _)); reflexivity.
Qed.

(** X8. When the upload fails, the one status posted is the error reply
    "Error uploading media: ...", at the visibility of the mentioning status
    (not the one passed in); the success reply is never composed. *)
Theorem failed_upload_becomes_error_reply (data : list byte) (n : Notification)
  (visibility : string) (w w1 : World) (err : error) :
  UploadMediaFromReader data w = (Err err, w1) ->
  let apology := error_toot n ("Error uploading media: " ++ err) in
  let res := fst (PostStatus apology w1) in
  uploadMediaAndReply data n visibility w =
    mkRun (Val tt) (snd (PostStatus apology w1))
          (EvUpload data (Err err) :: EvPostStatus apology res ::
           error_reply_log res) /\
  toot_Visibility apology = st_Visibility (n_Status n).
Proof.
  intros Hup. cbn zeta. rewrite uploadMediaAndReply_run. cbn zeta.
  rewrite Hup. cbn [fst snd]. rewrite replyWithError_run. split; reflexivity.
Qed.

(** X9. When every stage succeeds, an image costs exactly four steps, in this
    order: the download, the log of the format, the upload of the bytes the
    encoder produced at quality 5, and one post: the success reply, addressed
    to the mentioning account, in reply to the mentioning status, carrying
    the identifier of the uploaded media and nothing else. *)
Theorem image_success_run (n : Notification) (url : string)
  (w w1 w2 w3 : World) (bytes data : list byte) (img : Image)
  (format : string) (media : Attachment) :
  http_Get url w = (Body bytes, w1) ->
  decodeImage (io_ReadAll bytes) = Val (Ok (img, format)) ->
  jpeg_Encode img 5 = Ok data ->
  UploadMediaFromReader data w1 = (Ok media, w2) ->
  PostStatus
    (success_toot n media (reply_visibility (st_Visibility (n_Status n)))) w2
    = (None, w3) ->
  let reply :=
    success_toot n media (reply_visibility (st_Visibility (n_Status n))) in
  handleMention_image n url w =
    mkRun (Val tt) w3
          [EvHttpGet url (Body bytes);
           EvLog ("Decoded image with format: " ++ format);
           EvUpload data (Ok media);
           EvPostStatus reply None] /\
  toot_Status reply =
    "@" ++ acc_Acct (n_Account n) ++ " Here's your compressed JPEG!" /\
  toot_InReplyToID reply = st_ID (n_Status n) /\
  toot_MediaIDs reply = [att_ID media].
Proof.
  intros Hget Hdec Henc Hup Hpost. cbn zeta.
  split; [|repeat split].
  unfold handleMention_image, bind.
  rewrite downloadAndCompressImage_run. cbn zeta.
  rewrite Hget. cbn [fst snd]. rewrite Hdec. cbn [out world trace].
  unfold compress. rewrite Henc.
  rewrite uploadMediaAndReply_run. cbn zeta.
  rewrite Hup. cbn [fst snd]. rewrite Hpost. reflexivity.
Qed.

(** *** Counting what a mention costs *)

Lemma handleMention_image_counts (n : Notification) (url : string) (w : World) :
  let t := trace (handleMention_image n url w) in
  1 <= List.length (posted t) <= 2 /\
  looked_up t = [] /\
  (uploaded t = [] \/
   exists img data, jpeg_Encode img 5 = Ok data /\ uploaded t = [data]).
Proof.
  cbn zeta. unfold handleMention_image.
  destruct (downloadAndCompressImage_returns url w) as [v Hv].
  destruct (downloadAndCompressImage_footprint url w)
    as (_ & _ & _ & Hp & Hu & Hl).
  rewrite (bind_val _ _ _ Hv). cbn [trace].
  rewrite posted_app, looked_up_app, uploaded_app, Hp, Hu, Hl. cbn [app].
  destruct v as [data|err].
  - destruct (downloadAndCompressImage_ok _ _ Hv) as [img Himg].
    rewrite uploadMediaAndReply_run. cbn zeta.
    destruct (fst (UploadMediaFromReader data _)) as [media|e]; cbn [trace].
    + destruct (fst (PostStatus _ _)) as [e|]; cbn [trace].
      * rewrite replyWithError_run. cbn zeta. cbn [trace].
        destruct (fst (PostStatus _ _)); cbn;
          (split; [lia|]; split; [reflexivity|]; right; eauto).
      * cbn. split; [lia|]. split; [reflexivity|]. right. eauto.
    + rewrite replyWithError_run. cbn zeta. cbn [trace].
      destruct (fst (PostStatus _ _)); cbn;
        (split; [lia|]; split; [reflexivity|]; right; eauto).
  - rewrite replyWithError_run. cbn zeta. cbn [trace].
    destruct (fst (PostStatus _ _)); cbn;
      (split; [lia|]; split; [reflexivity|]; now left).
Qed.

Lemma for_range_images_counts (n : Notification) (urls : list string) (w : World) :
  let t := trace (for_range urls (handleMention_image n) w) in
  List.length urls <= List.length (posted t) <= 2 * List.length urls /\
  List.length (uploaded t) <= List.length urls /\
  looked_up t = [] /\
  Forall (fun data => exists img, jpeg_Encode img 5 = Ok data) (uploaded t).
Proof.
  cbn zeta. revert w. induction urls as [|url urls IH]; intros w;
    cbn [for_range].
  - cbn. repeat split; try lia. constructor.
  - rewrite (bind_val _ _ _ (handleMention_image_returns n url w)). cbn [trace].
    rewrite posted_app, uploaded_app, looked_up_app, !length_app.
    destruct (handleMention_image_counts n url w) as (Hp & Hl & Hu).
    destruct (IH (world (handleMention_image n url w))) as (IHp & IHu & IHl & IHq).
    rewrite Hl, IHl. cbn [List.length app].
    split; [lia|]. split; [|split; [reflexivity|]].
    + destruct Hu as [-> | (img & data & _ & ->)]; cbn; lia.
    + apply Forall_app. split; [|exact IHq].
      destruct Hu as [-> | (img & data & Himg & ->)]; [constructor|].
      constructor; [eauto | constructor].
Qed.

(** Neither the collection nor any image makes the handler panic. *)
Lemma handleMention_total (n : Notification) (w : World) :
  out (handleMention n w) = Val tt.
Proof.
  unfold handleMention.
  destruct (collectImages_returns (n_Status n) w) as [images Hc].
  rewrite (bind_val _ _ _ Hc). cbn [out].
  destruct images as [|url urls]; cbn [List.length Nat.eqb].
  - now rewrite replyWithError_run.
  - apply for_range_total. apply handleMention_image_returns.
Qed.

(** X11. What a mention costs.  With N images collected, the handler makes
    one post when N is 0 and between N and 2N posts otherwise, so a mention
    is never left without an attempted reply; it uploads at most N buffers;
    and the one status lookup it may make is the collector's. *)
Theorem handleMention_counts (n : Notification) (w : World)
  (images : list string) :
  out (collectImages (n_Status n) w) = Val images ->
  let t := trace (handleMention n w) in
  let N := List.length images in
  Nat.max 1 N <= List.length (posted t) <= Nat.max 1 (2 * N) /\
  List.length (uploaded t) <= N /\
  looked_up t = looked_up (trace (collectImages (n_Status n) w)) /\
  List.length (looked_up t) <= 1.
Proof.
  intros Hc. cbn zeta.
  destruct (collectImages_footprint (n_Status n) w)
    as (_ & Hl & Hp & _ & Hu).
  unfold handleMention. rewrite (bind_val _ _ _ Hc). cbn [trace].
  rewrite posted_app, uploaded_app, looked_up_app, Hp, Hu. cbn [app].
  destruct images as [|url urls]; cbn [List.length Nat.eqb].
  - rewrite replyWithError_run. cbn zeta. cbn [trace].
    destruct (fst (PostStatus _ _)); cbn; rewrite app_nil_r;
      (repeat split; try lia; exact Hl).
  - destruct (for_range_images_counts n (url :: urls)
                (world (collectImages (n_Status n) w))) as (Hq & Hv & Hk & _).
    cbn [List.length] in Hq, Hv. rewrite Hk, app_nil_r.
    repeat split; try lia; exact Hl.
Qed.

(** X12. Nothing but the encoder's output is ever uploaded: every buffer the
    handler hands to the media upload is what [jpeg.Encode] returned for some
    bitmap at quality 5. *)
Theorem handleMention_uploads_are_jpeg (n : Notification) (w : World) :
  Forall (fun data => exists img, jpeg_Encode img 5 = Ok data)
         (uploaded (trace (handleMention n w))).
Proof.
  destruct (collectImages_returns (n_Status n) w) as [images Hc].
  destruct (collectImages_footprint (n_Status n) w)
    as (_ & _ & _ & _ & Hu).
  unfold handleMention. rewrite (bind_val _ _ _ Hc). cbn [trace].
  rewrite uploaded_app, Hu. cbn [app].
  destruct images as [|url urls]; cbn [List.length Nat.eqb].
  - rewrite replyWithError_run. cbn zeta. cbn [trace].
    destruct (fst (PostStatus _ _)); constructor.
  - apply for_range_images_counts.
Qed.

End WorkflowMore.

(** ** The event loop and [main] *)

Section MainFacts.

Context {World Image : Type} {services : Services World Image}
  {startup : Startup World}.

Lemma bind_ret_l {A B} (a : A) (f : A -> M World B) (w : World) :
  bind (ret a) f w = f a w.
Proof. unfold bind, ret. cbn. now destruct (f a w). Qed.

Lemma bind_assoc {A B C} (m : M World A) (f : A -> M World B)
  (g : B -> M World C) (w : World) :
  bind (bind m f) g w = bind m (fun a => bind (f a) g) w.
Proof.
  unfold bind. destruct (out (m w)) as [a|msg]; cbn; [|reflexivity].
  destruct (out (f a (world (m w)))) as [b|msg]; cbn; [|reflexivity].
  now rewrite app_assoc.
Qed.

Lemma bind_ext {A B} (m : M World A) (f g : A -> M World B) (w : World) :
  (forall a w', f a w' = g a w') -> bind m f w = bind m g w.
Proof.
  intros H. unfold bind. destruct (out (m w)); [|reflexivity]. now rewrite H.
Qed.

Lemma for_range_app {A} (body : A -> M World unit) (xs ys : list A) (w : World) :
  for_range (xs ++ ys) body w =
    bind (for_range xs body) (fun _ => for_range ys body) w.
Proof.
  revert w. induction xs as [|x xs IH]; intros w; cbn [app for_range].
  - now rewrite bind_ret_l.
  - rewrite bind_assoc. apply bind_ext. intros _ w'. apply IH.
Qed.

(** The loop, event by event, against the loop over the mentions. *)
Lemma main_loop_as_mentions (events : list StreamEvent) (w : World) :
  main_loop events w = for_range (mentions events) handleMention_ptr w.
Proof.
  unfold main_loop. revert w.
  induction events as [|event events IH]; intros w; [reflexivity|].
  cbn [for_range mentions flat_map].
  destruct event as [notification|kind]; cbn [main_event].
  - destruct (np_Type notification =? "mention"); cbn [app for_range].
    + apply bind_ext. intros _ w'. apply IH.
    + rewrite bind_ret_l. apply IH.
  - rewrite bind_ret_l. apply IH.
Qed.

Lemma handleMention_ptr_nil (notification : NotificationPtr) (w : World) :
  np_Status notification = None ->
  handleMention_ptr notification w =
    mkRun (Panic "invalid memory address or nil pointer dereference") w [].
Proof. intros H. unfold handleMention_ptr. now rewrite H. Qed.

Lemma handleMention_ptr_present (notification : NotificationPtr) (w : World) :
  has_status notification -> out (handleMention_ptr notification w) = Val tt.
Proof.
  unfold has_status, handleMention_ptr.
  destruct (np_Status notification) as [status|]; [|congruence].
  intros _. apply handleMention_total.
Qed.

Lemma main_loop_total (events : list StreamEvent) (w : World) :
  Forall has_status (mentions events) -> out (main_loop events w) = Val tt.
Proof.
  rewrite main_loop_as_mentions. revert w.
  induction (mentions events) as [|notification rest IH]; intros w Hall;
    cbn [for_range]; [reflexivity|].
  inversion Hall as [|? ? Hhead Hrest]; subst.
  rewrite (bind_val _ _ _ (handleMention_ptr_present w Hhead)). cbn [out].
  now apply IH.
Qed.

(** X10. Handling a mention returns whenever the notification carries its
    status, whatever the status and the state of the world.  A notification
    whose status pointer is nil makes the handler panic at the first
    dereference, before anything has been done to the outside. *)
Theorem handleMention_returns_unless_nil_status (notification : NotificationPtr)
  (w : World) :
  (has_status notification ->
   out (handleMention_ptr notification w) = Val tt) /\
  (np_Status notification = None ->
   handleMention_ptr notification w =
     mkRun (Panic "invalid memory address or nil pointer dereference") w []).
Proof.
  split; [apply handleMention_ptr_present | apply handleMention_ptr_nil].
Qed.

(** X13. The loop acts on mentions and on nothing else: a run over the
    events of the stream is the run of [handleMention] over the mention
    notifications among them, in delivery order, each one starting in the
    world the one before left; notifications of another type and events of
    another kind leave no trace. *)
Theorem main_loop_only_mentions (events : list StreamEvent) (w : World) :
  main_loop events w = for_range (mentions events) handleMention_ptr w.
Proof. apply main_loop_as_mentions. Qed.

(** X14. One mention without its status ends the loop.  The events before
    it, whose mentions carry their status, are handled and the loop gets
    through them; at the mention without status the loop panics, with
    nothing done for it, and the events after it are never looked at. *)
Theorem main_loop_stops_at_statusless_mention (before after : list StreamEvent)
  (notification : NotificationPtr) (w : World) :
  Forall has_status (mentions before) ->
  np_Type notification = "mention" ->
  np_Status notification = None ->
  let r := main_loop before w in
  out r = Val tt /\
  main_loop (before ++ NotificationEvent notification :: after) w =
    mkRun (Panic "invalid memory address or nil pointer dereference")
          (world r) (trace r).
Proof.
  intros Hbefore Htype Hnil. cbn zeta.
  pose proof (main_loop_total before w Hbefore) as Hret.
  split; [exact Hret|].
  unfold main_loop at 1. rewrite for_range_app.
  fold (main_loop before). rewrite (bind_val _ _ _ Hret).
  cbn [for_range main_event out world trace]. rewrite Htype.
  change ("mention" =? "mention") with true. cbn iota.
  unfold bind. rewrite (handleMention_ptr_nil notification _ Hnil). cbn [out world trace].
  now rewrite app_nil_r.
Qed.

End MainFacts.

(** ** Runs on the concrete world *)

Import Demo.

Example mention_with_three_images :
  let r := handleMention (mention "public" [cat; clip; gone; dog] IrNil) w0 in
  fetched (trace r) =
    ["https://files.example/cat.png"; "https://files.example/gone.png";
     "https://files.example/dog.jpg"] /\
  map toot_Status (posted (trace r)) =
    ["@alice@example.social Here's your compressed JPEG!";
     "@alice@example.social Oops! Error compressing image: failed to download image: connection refused";
     "@alice@example.social Here's your compressed JPEG!"] /\
  map toot_Visibility (posted (trace r)) = ["unlisted"; "public"; "unlisted"].
Proof. vm_compute. repeat split. Qed.

Lemma collectImages_own_or_parent_witness :
  collectImages (mkStatus "200" "public" [cat; clip; dog] (IrString "100")) w0 =
    mkRun (Val ["https://files.example/cat.png"; "https://files.example/dog.jpg"])
          w0 [] /\
  collectImages (mkStatus "200" "public" [clip] (IrString "100")) w0 =
    mkRun (Val ["https://files.example/cat.png"; "https://files.example/dog.jpg"])
          w0 [EvGetStatus "100" (Ok parent)] /\
  collectImages (mkStatus "200" "public" [clip] (IrID "7")) w0 =
    mkRun (Val []) w0 [EvGetStatus "7" (Err "404 Not Found")].
Proof.
  split; [|split].
  - apply (proj1 (collectImages_own_or_parent
                    (mkStatus "200" "public" [cat; clip; dog] (IrString "100")) w0)).
    discriminate.
  - apply (proj1 (proj2 (collectImages_own_or_parent
                           (mkStatus "200" "public" [clip] (IrString "100")) w0))
             "100" parent w0); reflexivity.
  - apply (proj2 (proj2 (collectImages_own_or_parent
                           (mkStatus "200" "public" [clip] (IrID "7")) w0))
             "7" "404 Not Found" w0); reflexivity.
Defined.

Lemma reply_visibility_policy_witness :
  let n := mention "public" [cat; gone] IrNil in
  let media := mkAttachment "m1" "image" "https://files.example/m1.jpg" in
  (exists res,
      In (EvPostStatus (success_toot n media "unlisted") res)
         (trace (handleMention_image n "https://files.example/cat.png" w0)) /\
      toot_Visibility (success_toot n media "unlisted") = "unlisted") /\
  (exists res,
      In (EvPostStatus
            (error_toot n
               "Error compressing image: failed to download image: connection refused")
            res)
         (trace (handleMention_image n "https://files.example/gone.png" w0)) /\
      toot_Visibility
        (error_toot n
           "Error compressing image: failed to download image: connection refused")
        = "public") /\
  trace (handleMention n w0) =
    List.concat
      (segments
         ["https://files.example/cat.png"; "https://files.example/gone.png"]
         (handleMention_image n) w0).
Proof.
  pose proof (reply_visibility_policy (mention "public" [cat; gone] IrNil) w0)
    as H.
  cbn zeta in H. destruct H as (_ & Hall & Hok & Herr & _ & _).
  split; [|split].
  - exact (Hok "https://files.example/cat.png" w0
             [xff; xd8; x05; x01; x02; x03]
             (mkAttachment "m1" "image" "https://files.example/m1.jpg") w0
             eq_refl eq_refl).
  - exact (Herr "https://files.example/gone.png" w0
             "failed to download image: connection refused" eq_refl).
  - refine (Hall ["https://files.example/cat.png";
                  "https://files.example/gone.png"] eq_refl _).
    discriminate.
Defined.

Lemma collectImages_unrecognized_looks_up_witness :
  collectImages (mkStatus "200" "private" [clip] (IrOther "float64")) w0 =
    mkRun (Val []) w0
          [EvLog "Unexpected type for InReplyToID: float64";
           EvGetStatus "" (Err "404 Not Found")].
Proof.
  exact (collectImages_unrecognized_looks_up
           (mkStatus "200" "private" [clip] (IrOther "float64"))
           (tyname := "float64") w0 eq_refl eq_refl).
Defined.


Lemma decodeImage_png_signature_witness :
  decodeImage (slice_lit cat_png) = Val (Ok ([x01; x02; x03], "png")) /\
  decodeImage (slice_lit bad_png) =
    Val (Err "PNG decoding failed: png: invalid format: chunk out of order").
Proof.
  split.
  - exact (decodeImage_png_signature (slice_lit cat_png) (rest := [x01; x02; x03])
             eq_refl).
  - exact (decodeImage_png_signature (slice_lit bad_png) (rest := [xff]) eq_refl).
Defined.

Lemma handleMention_attempts_every_image_witness :
  let n := mention "public" [cat; clip; gone; dog] IrNil in
  let images :=
    ["https://files.example/cat.png"; "https://files.example/gone.png";
     "https://files.example/dog.jpg"] in
  out (handleMention n w0) = Val tt /\
  fetched (trace (handleMention n w0)) = images /\
  exists segs : list (list Event),
    trace (handleMention n w0) =
      (trace (collectImages (n_Status n) w0) ++ List.concat segs)%list /\
    Forall2 (attempt n) images segs.
Proof.
  refine (handleMention_attempts_every_image
            (mention "public" [cat; clip; gone; dog] IrNil) w0 eq_refl _).
  discriminate.
Defined.

Lemma handleMention_no_images_witness :
  let n := mention "private" [clip] IrNil in
  let reply := error_toot n "No images found to process." in
  posted (trace (handleMention n w1)) = [reply] /\
  trace (handleMention n w1) =
    [EvPostStatus reply (Some "503 Service Unavailable");
     EvLog "Error posting error reply: 503 Service Unavailable"] /\
  toot_Status reply = "@alice@example.social Oops! No images found to process.".
Proof.
  pose proof (handleMention_no_images (mention "private" [clip] IrNil) w1 eq_refl)
    as H.
  cbn zeta in H. destruct H as (_ & _ & Hposted & _).
  split; [exact Hposted|]. split; reflexivity.
Defined.

(** C8, as stated, fails: here the post of the success reply fails, a second
    status is posted for the same image (the error reply), and nothing is
    logged. *)
Lemma failed_success_post_is_followed_by_a_post :
  let n := mention "private" [cat] IrNil in
  let media := mkAttachment "m1" "image" "https://files.example/m1.jpg" in
  let r := uploadMediaAndReply [xff; xd8; x05; x01] n "private" w1 in
  trace r =
    [EvUpload [xff; xd8; x05; x01] (Ok media);
     EvPostStatus (success_toot n media "private") (Some "503 Service Unavailable");
     EvPostStatus (error_toot n "Error posting reply: 503 Service Unavailable") None] /\
  List.length (posted (trace r)) = 2 /\
  filter is_log (trace r) = [].
Proof. vm_compute. repeat split. Qed.

Lemma failed_success_post_becomes_error_reply_witness :
  let n := mention "public" [cat] IrNil in
  let media := mkAttachment "m1" "image" "https://files.example/m1.jpg" in
  uploadMediaAndReply [xff; xd8; x05; x01] n "public" w12 =
    mkRun (Val tt) (mkWorld 2 [1; 2])
      [EvUpload [xff; xd8; x05; x01] (Ok media);
       EvPostStatus (success_toot n media "unlisted") (Some "503 Service Unavailable");
       EvPostStatus (error_toot n "Error posting reply: 503 Service Unavailable")
                    (Some "503 Service Unavailable");
       EvLog "Error posting error reply: 503 Service Unavailable"].
Proof.
  exact (failed_success_post_becomes_error_reply
           [xff; xd8; x05; x01] (mention "public" [cat] IrNil) "public" w12
           (w1 := w12) (w2 := mkWorld 1 [1; 2])
           (media := mkAttachment "m1" "image" "https://files.example/m1.jpg")
           (err := "503 Service Unavailable") eq_refl eq_refl).
Defined.

Lemma compression_at_quality_5_witness :
  out (downloadAndCompressImage "https://files.example/cat.png" w12) =
    Val (Ok [xff; xd8; x05; x01; x02; x03]).
Proof.
  exact (compression_at_quality_5
           "https://files.example/cat.png" w12
           (bytes := cat_png) (img := [x01; x02; x03]) (format := "png")
           eq_refl eq_refl).
Defined.

Lemma error_replies_say_compressing_witness :
  let n := mention "direct" [gone] IrNil in
  posted (trace (handleMention_image n "https://files.example/gone.png" w0)) =
    [mkToot
       "@alice@example.social Oops! Error compressing image: failed to download image: connection refused"
       "200" [] "direct"].
Proof.
  exact (proj1 (proj2 (error_replies_say_compressing (mention "direct" [gone] IrNil))
                  "https://files.example/gone.png" w0
                  "failed to download image: connection refused" eq_refl)).
Defined.

(** ** Further runs on the concrete world *)

Import DemoStream.

Lemma collectImages_no_target_witness :
  collectImages (mkStatus "200" "private" [clip] (IrString "")) w0 =
    mkRun (Val []) w0 [].
Proof.
  refine (collectImages_no_target
            (mkStatus "200" "private" [clip] (IrString "")) w0 eq_refl _).
  right. reflexivity.
Defined.

Lemma collectImages_representation_irrelevant_witness :
  collectImages (mkStatus "200" "public" [clip] (IrString "100")) w0 =
  collectImages (mkStatus "200" "public" [clip] (IrID "100")) w0.
Proof.
  refine (collectImages_representation_irrelevant
            "200" "public" [clip] (target := "100") w0 _).
  discriminate.
Defined.

Lemma collectImages_empty_typed_id_is_looked_up_witness :
  looked_up (trace (collectImages (mkStatus "200" "public" [clip] (IrString "")) w0))
    = [] /\
  looked_up (trace (collectImages (mkStatus "200" "public" [clip] (IrID "")) w0))
    = [""].
Proof.
  exact (collectImages_empty_typed_id_is_looked_up
           "200" "public" [clip] w0 eq_refl).
Defined.

Lemma png_test_exact_witness :
  HasPrefix (Sprintf_x png_magic) "89504e470d0a1a0a" = true /\
  (HasPrefix (Sprintf_x [x89; x50; x4e; x47; x0d; x0a; x1a; x0b])
             "89504e470d0a1a0a" = true ->
   [x89; x50; x4e; x47; x0d; x0a; x1a; x0b] = png_magic).
Proof.
  split.
  - exact (proj2 (png_test_exact png_magic eq_refl) eq_refl).
  - exact (proj1 (png_test_exact [x89; x50; x4e; x47; x0d; x0a; x1a; x0b] eq_refl)).
Defined.

Lemma decodeImage_fallback_order_witness :
  decodeImage (io_ReadAll dog_jpg) = Val (Ok ([x0a; x0b], "jpeg")) /\
  decodeImage (io_ReadAll [x52; x49; x46; x46; x07]) = Val (Ok ([x07], "webp")) /\
  decodeImage (io_ReadAll [x01]) = Val (Err "unsupported image format").
Proof.
  split; [|split].
  - refine (decodeImage_fallback_order (io_ReadAll dog_jpg) _ _).
    + cbn. lia.
    + discriminate.
  - refine (decodeImage_fallback_order (io_ReadAll [x52; x49; x46; x46; x07]) _ _).
    + cbn. lia.
    + discriminate.
  - refine (decodeImage_fallback_order (io_ReadAll [x01]) _ _).
    + cbn. lia.
    + discriminate.
Defined.

Lemma decodeImage_errors_witness :
  "PNG decoding failed: png: invalid format: chunk out of order"
    = "unsupported image format" \/
  exists e, png_Decode (elems (slice_lit bad_png)) = Err e /\
            "PNG decoding failed: png: invalid format: chunk out of order"
              = "PNG decoding failed: " ++ e.
Proof.
  exact (decodeImage_errors (slice_lit bad_png) eq_refl).
Defined.

Lemma failed_image_is_not_uploaded_witness :
  let n := mention "direct" [gone] IrNil in
  let apology :=
    error_toot n
      "Error compressing image: failed to download image: connection refused" in
  handleMention_image n "https://files.example/gone.png" w1 =
    mkRun (Val tt) (mkWorld 1 [1])
          [EvHttpGet "https://files.example/gone.png"
             (GetFailed "connection refused");
           EvPostStatus apology (Some "503 Service Unavailable");
           EvLog "Error posting error reply: 503 Service Unavailable"] /\
  uploaded (trace (handleMention_image n "https://files.example/gone.png" w1)) = [].
Proof.
  exact (failed_image_is_not_uploaded (mention "direct" [gone] IrNil)
           "https://files.example/gone.png" w1
           (err := "failed to download image: connection refused") eq_refl).
Defined.

Lemma failed_upload_becomes_error_reply_witness :
  let n := mention "public" [cat] IrNil in
  let apology :=
    error_toot n "Error uploading media: 422 Unprocessable Entity" in
  uploadMediaAndReply [] n "public" w0 =
    mkRun (Val tt) (mkWorld 1 [])
          [EvUpload [] (Err "422 Unprocessable Entity");
           EvPostStatus apology None] /\
  toot_Visibility apology = "public".
Proof.
  exact (failed_upload_becomes_error_reply [] (mention "public" [cat] IrNil)
           "public" w0 (w1 := w0) (err := "422 Unprocessable Entity") eq_refl).
Defined.

Lemma image_success_run_witness :
  let n := mention "public" [cat] IrNil in
  let media := mkAttachment "m1" "image" "https://files.example/m1.jpg" in
  handleMention_image n "https://files.example/cat.png" w0 =
    mkRun (Val tt) (mkWorld 1 [])
          [EvHttpGet "https://files.example/cat.png" (Body cat_png);
           EvLog "Decoded image with format: png";
           EvUpload [xff; xd8; x05; x01; x02; x03] (Ok media);
           EvPostStatus (success_toot n media "unlisted") None] /\
  toot_Status (success_toot n media "unlisted") =
    "@alice@example.social Here's your compressed JPEG!" /\
  toot_InReplyToID (success_toot n media "unlisted") = "200" /\
  toot_MediaIDs (success_toot n media "unlisted") = ["m1"].
Proof.
  exact (image_success_run (mention "public" [cat] IrNil)
           "https://files.example/cat.png" w0
           (w1 := w0) (w2 := w0) (w3 := mkWorld 1 [])
           (bytes := cat_png) (data := [xff; xd8; x05; x01; x02; x03])
           (img := [x01; x02; x03]) (format := "png")
           (media := mkAttachment "m1" "image" "https://files.example/m1.jpg")
           eq_refl eq_refl eq_refl eq_refl eq_refl).
Defined.

Lemma handleMention_counts_witness :
  let n := mention "private" [cat; clip; gone; dog] IrNil in
  let t := trace (handleMention n w1) in
  Nat.max 1 3 <= List.length (posted t) <= Nat.max 1 (2 * 3) /\
  List.length (uploaded t) <= 3 /\
  looked_up t = looked_up (trace (collectImages (n_Status n) w1)) /\
  List.length (looked_up t) <= 1.
Proof.
  exact (handleMention_counts (mention "private" [cat; clip; gone; dog] IrNil) w1
           (images := ["https://files.example/cat.png";
                       "https://files.example/gone.png";
                       "https://files.example/dog.jpg"]) eq_refl).
Defined.

Example stream_of_five_events :
  let r := main w0 in
  exit r = Returned /\
  output r =
    [Stdout "jpeg-bot is live! Listening for events...";
     Did (EvPostStatus (error_toot empty_handed "No images found to process.") None);
     Did (EvHttpGet "https://files.example/cat.png" (Body cat_png));
     Did (EvLog "Decoded image with format: png");
     Did (EvUpload [xff; xd8; x05; x01; x02; x03]
            (Ok (mkAttachment "m1" "image" "https://files.example/m1.jpg")));
     Did (EvPostStatus
            (success_toot hello
               (mkAttachment "m1" "image" "https://files.example/m1.jpg")
               "unlisted") None)] /\
  exit (main (mkWorld 0 [0])) = Fatal /\
  output (main (mkWorld 0 [3])) =
    [Did (EvLog "Error connecting to streaming API: parse error")].
Proof. vm_compute. repeat split. Qed.

Lemma handleMention_returns_unless_nil_status_witness :
  out (handleMention_ptr
         (mkNotificationPtr "mention" alice (Some (n_Status hello))) w0)
    = Val tt /\
  handleMention_ptr bare w1 =
    mkRun (Panic "invalid memory address or nil pointer dereference") w1 [].
Proof.
  split.
  - refine (proj1 (handleMention_returns_unless_nil_status
                     (mkNotificationPtr "mention" alice (Some (n_Status hello)))
                     w0) _).
    unfold has_status. discriminate.
  - exact (proj2 (handleMention_returns_unless_nil_status bare w1) eq_refl).
Defined.

Lemma main_loop_stops_at_statusless_mention_witness :
  out (main_loop events w0) = Val tt /\
  main_loop (events ++ NotificationEvent bare :: [delivered "mention" hello]) w0 =
    mkRun (Panic "invalid memory address or nil pointer dereference")
          (world (main_loop events w0)) (trace (main_loop events w0)).
Proof.
  refine (@main_loop_stops_at_statusless_mention _ _ _
            events [delivered "mention" hello] bare w0 _ eq_refl eq_refl).
  cbn. repeat constructor; unfold has_status; discriminate.
Defined.

Example statusless_mention_ends_the_run :
  let r :=
    main_loop (events ++ NotificationEvent bare :: [delivered "mention" hello]) w0 in
  out r = Panic "invalid memory address or nil pointer dereference" /\
  List.length (posted (trace r)) = 2 /\
  fetched (trace r) = ["https://files.example/cat.png"].
Proof. vm_compute. repeat split. Qed.
